(** * Game poster application: a shallow embedding of [main.py]

    The program is a Kivy application that downloads five pages of a game
    catalogue over HTTP, decodes every JSON item into a [GameDetails]
    object and shows one poster per game.  The embedding follows the
    source statement by statement:

    - JSON documents decoded by [response.json()] are Python values
      ([pyval]); JSON objects are dictionaries ([gmap string pyval]);
    - Python exceptions are values of [exn]; a computation either returns
      or raises ([outcome]);
    - logging, the HTTP traffic and the attributes of the application
      object are threaded through a state-and-exception monad [M];
    - the remote API, the process environment and the [.env] file are the
      inputs of the program ([World]). *)

From Stdlib Require Import ZArith Lia.
From stdpp Require Import gmap strings list list_numbers fin_maps pretty.

Open Scope Z_scope.

(** ** Python values *)

#[warnings="-register-all"]
Inductive pyval : Type :=
| PNone
| PBool (b : bool)
| PInt (z : Z)
| PFloat (bits : Z)               (* IEEE-754 binary64, as its bit pattern *)
| PStr (s : string)
| PList (l : list pyval)
| PDict (d : gmap string pyval).

Definition type_name (v : pyval) : string :=
  match v with
  | PNone => "NoneType"
  | PBool _ => "bool"
  | PInt _ => "int"
  | PFloat _ => "float"
  | PStr _ => "str"
  | PList _ => "list"
  | PDict _ => "dict"
  end.

(** [bool(v)]: the truth value Python's [if v:] tests. *)
Definition truthy (v : pyval) : bool :=
  match v with
  | PNone => false
  | PBool b => b
  | PInt z => negb (z =? 0)
  | PFloat bits => negb ((bits =? 0) || (bits =? 2 ^ 63))   (* 0.0 and -0.0 *)
  | PStr s => negb (String.eqb s EmptyString)
  | PList l => match l with [] => false | _ => true end
  | PDict d => negb (bool_decide (d = ∅))
  end.

(** ** Exceptions *)

Inductive exn_class : Type :=
| BaseException
| KeyboardInterrupt
| SystemExit
| Exception
| KeyError
| TypeError
| AttributeError
| ValueError
| ScreenManagerException
| RequestException
| HTTPError
| ConnectionError
| Timeout
| InvalidJSONError.

Global Instance exn_class_eq_dec : EqDecision exn_class.
Proof. solve_decision. Defined.

(** [subclass c d]: [issubclass(c, d)] for the classes above. *)
Definition subclass (c d : exn_class) : bool :=
  match d with
  | BaseException => true
  | Exception =>
      match c with
      | BaseException | KeyboardInterrupt | SystemExit => false
      | _ => true
      end
  | RequestException =>
      match c with
      | RequestException | HTTPError | ConnectionError | Timeout
      | InvalidJSONError => true
      | _ => false
      end
  | _ => bool_decide (c = d)
  end.

(** An exception object: its class and the text [str(e)] shows. *)
Record exn : Type := mk_exn { exn_class_of : exn_class; exn_text : string }.

Definition isinstance (e : exn) (c : exn_class) : bool :=
  subclass (exn_class_of e) c.

(** ** Outcomes of a computation *)

Inductive outcome (A : Type) : Type :=
| Ret (a : A)
| Raise (e : exn).
Arguments Ret {A} a.
Arguments Raise {A} e.

Global Instance outcome_ret : MRet outcome := λ A a, Ret a.
Global Instance outcome_bind : MBind outcome := λ A B f m,
  match m with
  | Ret a => f a
  | Raise e => Raise e
  end.

(** ** Operations of the Python data model used by the program *)

(** [v[k]] for a string [k]. *)
Definition py_getitem (v : pyval) (k : string) : outcome pyval :=
  match v with
  | PDict d =>
      match d !! k with
      | Some x => Ret x
      | None => Raise (mk_exn KeyError ("'" +:+ k +:+ "'"))
      end
  | PList _ =>
      Raise (mk_exn TypeError "list indices must be integers or slices, not str")
  | PStr _ =>
      Raise (mk_exn TypeError "string indices must be integers, not 'str'")
  | _ =>
      Raise (mk_exn TypeError ("'" +:+ type_name v +:+ "' object is not subscriptable"))
  end.

(** [v.get(k, dflt)]: only dictionaries have the method. *)
Definition py_get (v : pyval) (k : string) (dflt : pyval) : outcome pyval :=
  match v with
  | PDict d => Ret (default dflt (d !! k))
  | _ =>
      Raise (mk_exn AttributeError
               ("'" +:+ type_name v +:+ "' object has no attribute 'get'"))
  end.

(** The elements [for x in v] visits.  A string yields its characters and
    a dictionary its keys (here in the order of [map_to_list]; the program
    fails in the same way on every key, so the order is immaterial). *)
Definition py_iter (v : pyval) : outcome (list pyval) :=
  match v with
  | PList l => Ret l
  | PStr s => Ret ((λ c, PStr (String c EmptyString)) <$> String.list_ascii_of_string s)
  | PDict d => Ret ((λ kv : string * pyval, PStr kv.1) <$> map_to_list d)
  | _ =>
      Raise (mk_exn TypeError ("'" +:+ type_name v +:+ "' object is not iterable"))
  end.

(** [range(a, b)] *)
Definition py_range (a b : Z) : list Z := seqZ a (b - a).

(** ** Formatted text

    An f-string is kept as the sequence of its literal parts and of the
    values interpolated between them. *)

Inductive fragment : Type :=
| FStr (s : string)
| FInt (z : Z)
| FVal (v : pyval)
| FExn (e : exn).

Definition text : Type := list fragment.

(** ** The game record (class [GameDetails]) *)

Record GameDetails : Type := mk_GameDetails {
  name : pyval;
  description : pyval;
  release_date : pyval;
  background_image : pyval;
}.

(** ** HTTP *)

Definition game_api_base_url : string := "https://api.rawg.io/api/games".

(** The query parameters of one GET request. *)
Record Params : Type := mk_Params {
  key : string;
  page : Z;
  page_size : Z;
}.

Record Request : Type := mk_Request { url : string; params : Params }.

(** The object [requests.get] returns. *)
Record Response : Type := mk_Response {
  status_code : Z;
  reason : string;               (* the reason phrase of the status line *)
  response_url : string;         (* [response.url], the URL that was fetched *)
  json : outcome pyval;          (* what [response.json()] does *)
}.

(** What the network does with a request: [requests.get] raises, or
    returns a response. *)
Definition Network : Type := Request → outcome Response.

(** [response.raise_for_status()]: an [HTTPError] for a 4xx status (a
    client error) and for a 5xx status (a server error), with the message
    [requests] builds; every other status is accepted. *)
Definition raise_for_status (response : Response) : outcome unit :=
  if (400 <=? status_code response) && (status_code response <? 500)
  then Raise (mk_exn HTTPError
                (pretty (status_code response) +:+ " Client Error: " +:+
                 reason response +:+ " for url: " +:+ response_url response))
  else if (500 <=? status_code response) && (status_code response <? 600)
  then Raise (mk_exn HTTPError
                (pretty (status_code response) +:+ " Server Error: " +:+
                 reason response +:+ " for url: " +:+ response_url response))
  else Ret tt.

(** ** Widgets *)

Inductive Callback : Type :=
| load_games_cb
| show_game_details_cb
| go_back_cb.

Global Instance Callback_eq_dec : EqDecision Callback.
Proof. solve_decision. Defined.

(** An [AsyncImage] tile of the poster grid. *)
Record AsyncImage : Type := mk_AsyncImage {
  source : string;
  height : Z;
  on_release : list Callback;    (* the callbacks bound to [on_release] *)
}.

(** The events an [AsyncImage] has: those of every [Widget] and its own
    two.  It is no button: [on_press] and [on_release] are not among
    them. *)
Definition AsyncImage_events : list string :=
  ["on_touch_down"; "on_touch_move"; "on_touch_up"; "on_kv_post";
   "on_error"; "on_load"].

(** [AsyncImage(source=v, size_hint_y=None, height=h)]: [source] is a
    Kivy [StringProperty] and refuses anything but a string.  The image
    itself is fetched later by Kivy's loader, on its own thread; that
    traffic is no call of [requests.get] and is not followed here. *)
Definition new_AsyncImage (v : pyval) (h : Z) : outcome AsyncImage :=
  match v with
  | PStr s => Ret (mk_AsyncImage s h [])
  | _ => Raise (mk_exn ValueError "AsyncImage.source accept only str")
  end.

(** [widget.bind(on_release=cb)] on an [AsyncImage]: Kivy binds a
    callback to an event the widget has, and silently ignores the name
    of an event the widget does not have. *)
Definition bind_on_release (w : AsyncImage) (cb : Callback) : AsyncImage :=
  if bool_decide ("on_release" ∈ AsyncImage_events)
  then mk_AsyncImage (source w) (height w) (on_release w ++ [cb])
  else w.

(** The widgets put on the detail screen. *)
Inductive DetailWidget : Type :=
| DLabel (t : string)
| DButton (t : string) (handlers : list Callback).

(** What [build] returns to Kivy as the root widget. *)
Inductive Root : Type :=
| RootLayout
| RootScreenManager.

(** ** Program state *)

Inductive Level : Type := INFO | WARNING | ERROR.

Record LogRecord : Type := mk_LogRecord { level : Level; message : text }.

Record State : Type := mk_State {
  log : list LogRecord;                  (* game_app.log, oldest first *)
  sent : list Request;                   (* the calls of requests.get, oldest first *)
  error_label : text;                    (* self.error_label.text *)
  poster_grid_layout : list AsyncImage;  (* tiles, in the order added *)
  loading_popup_open : bool;             (* self.loading_popup *)
  screens : list string;                 (* screens of self.screen_manager *)
  current : option string;               (* self.screen_manager.current *)
  detail_screen : list DetailWidget;     (* children of self.detail_screen *)
  clock : list (Callback * Z);           (* Clock.schedule_once requests *)
}.

Definition initial_state : State :=
  mk_State [] [] [] [] false [] None [] [].

Definition set_log (f : list LogRecord → list LogRecord) (s : State) : State :=
  mk_State (f (log s)) (sent s) (error_label s) (poster_grid_layout s)
    (loading_popup_open s) (screens s) (current s) (detail_screen s) (clock s).
Definition set_sent (f : list Request → list Request) (s : State) : State :=
  mk_State (log s) (f (sent s)) (error_label s) (poster_grid_layout s)
    (loading_popup_open s) (screens s) (current s) (detail_screen s) (clock s).
Definition set_error_label (t : text) (s : State) : State :=
  mk_State (log s) (sent s) t (poster_grid_layout s)
    (loading_popup_open s) (screens s) (current s) (detail_screen s) (clock s).
Definition set_poster_grid_layout
    (f : list AsyncImage → list AsyncImage) (s : State) : State :=
  mk_State (log s) (sent s) (error_label s) (f (poster_grid_layout s))
    (loading_popup_open s) (screens s) (current s) (detail_screen s) (clock s).
Definition set_loading_popup_open (b : bool) (s : State) : State :=
  mk_State (log s) (sent s) (error_label s) (poster_grid_layout s)
    b (screens s) (current s) (detail_screen s) (clock s).
Definition set_screens (f : list string → list string) (s : State) : State :=
  mk_State (log s) (sent s) (error_label s) (poster_grid_layout s)
    (loading_popup_open s) (f (screens s)) (current s) (detail_screen s) (clock s).
Definition set_current (c : option string) (s : State) : State :=
  mk_State (log s) (sent s) (error_label s) (poster_grid_layout s)
    (loading_popup_open s) (screens s) c (detail_screen s) (clock s).
Definition set_detail_screen (d : list DetailWidget) (s : State) : State :=
  mk_State (log s) (sent s) (error_label s) (poster_grid_layout s)
    (loading_popup_open s) (screens s) (current s) d (clock s).
Definition set_clock
    (f : list (Callback * Z) → list (Callback * Z)) (s : State) : State :=
  mk_State (log s) (sent s) (error_label s) (poster_grid_layout s)
    (loading_popup_open s) (screens s) (current s) (detail_screen s) (f (clock s)).

(** ** The monad of the program: state and exceptions *)

Definition M (A : Type) : Type := State → outcome A * State.

Global Instance M_ret : MRet M := λ A a s, (Ret a, s).
Global Instance M_bind : MBind M := λ A B f m s,
  match m s with
  | (Ret a, s') => f a s'
  | (Raise e, s') => (Raise e, s')
  end.

(** A pure computation run inside [M]. *)
Definition lift {A} (o : outcome A) : M A := λ s, (o, s).

(** A state update that cannot fail. *)
Definition modify (f : State → State) : M unit := λ s, (Ret tt, f s).

(** [try: body / except c1 as e: h1 / except c2 as e: h2 ...]: the first
    clause whose class the exception is an instance of handles it. *)
Definition try_except {A} (body : M A)
    (clauses : list (exn_class * (exn → M A))) : M A := λ s,
  match body s with
  | (Raise e, s') =>
      match List.find (λ cl, isinstance e cl.1) clauses with
      | Some cl => cl.2 e s'
      | None => (Raise e, s')
      end
  | r => r
  end.

(** [try: body / finally: final] *)
Definition try_finally {A} (body : M A) (final : M unit) : M A := λ s,
  match body s with
  | (r, s') =>
      match final s' with
      | (Ret _, s'') => (r, s'')
      | (Raise e, s'') => (Raise e, s'')
      end
  end.

(** [for x in l: acc = body acc x] *)
Fixpoint for_loop {A B} (body : B → A → M B) (acc : B) (l : list A) : M B :=
  match l with
  | [] => mret acc
  | x :: l' => acc' ← body acc x; for_loop body acc' l'
  end.

(** [logging.error], [logging.warning] *)
Definition logging_error (msg : text) : M unit :=
  modify (set_log (λ l, l ++ [mk_LogRecord ERROR msg])).
Definition logging_warning (msg : text) : M unit :=
  modify (set_log (λ l, l ++ [mk_LogRecord WARNING msg])).

(** ** The program *)

(** [os.getenv(k, dflt)] *)
Definition os_getenv (environ : gmap string string) (k dflt : string) : string :=
  default dflt (environ !! k).

(** [load_dotenv()]: the entries of [.env] are added to the environment;
    variables already set keep their value. *)
Definition load_dotenv (environ dotenv : gmap string string) : gmap string string :=
  environ ∪ dotenv.

(** Module level: [api_key = os.getenv('GAME_API_KEY', 'your_api_key_here')],
    evaluated after [load_dotenv()]. *)
Definition api_key_of (environ dotenv : gmap string string) : string :=
  os_getenv (load_dotenv environ dotenv) "GAME_API_KEY" "your_api_key_here".

Definition api_key_error : text :=
  [FStr "Error: API key not found. Please check your environment variables or the default API key in the code."].

Definition poster_error : text :=
  [FStr "Error loading poster image. Please check your internet connection and try again."].

Definition general_error_text (general_error : exn) : text :=
  [FStr "General error: "; FExn general_error;
   FStr ". Please check your setup and try again."].

(** The body of the list comprehension of [fetch_popular_games]: one
    [GameDetails] from one element of [results]. *)
Definition decode_game (game_data : pyval) : outcome GameDetails :=
  n ← py_getitem game_data "name";
  d ← py_get game_data "description" (PStr "No description available");
  r ← py_get game_data "released" (PStr "Unknown release date");
  b ← py_get game_data "background_image" (PStr EmptyString);
  mret (mk_GameDetails n d r b).

Section Program.

(** The remote API and the module-level [api_key]. *)
Variable net : Network.
Variable api_key : string.

(** [requests.get(url, params=params)] *)
Definition requests_get (u : string) (p : Params) : M Response := λ s,
  (net (mk_Request u p), set_sent (λ l, l ++ [mk_Request u p]) s).

(** The [try] block of [fetch_popular_games]. *)
Definition fetch_popular_games_try (page_number : Z) : M (option (list GameDetails)) :=
  let params := mk_Params api_key page_number 10 in
  response ← requests_get game_api_base_url params;
  _ ← lift (raise_for_status response);
  body ← lift (json response);
  games ← lift (py_get body "results" (PList []));
  items ← lift (py_iter games);
  records ← lift (mapM decode_game items);
  mret (Some records).

Definition fetch_popular_games (page_number : Z) : M (option (list GameDetails)) :=
  try_except (fetch_popular_games_try page_number)
    [ (RequestException, λ request_error,
         _ ← logging_error [FStr "Request error occurred: "; FExn request_error];
         mret None);
      (Exception, λ general_error,
         _ ← logging_error [FStr "Unexpected error: "; FExn general_error];
         mret None) ].

(** [bool(popular_games_page)] for an [Optional[List[GameDetails]]]. *)
Definition page_truthy (popular_games_page : option (list GameDetails)) : bool :=
  match popular_games_page with
  | Some (_ :: _) => true
  | _ => false
  end.

(** One iteration of the first loop of [load_games]. *)
Definition load_page (all_popular_games : list GameDetails) (page_number : Z)
    : M (list GameDetails) :=
  popular_games_page ← fetch_popular_games page_number;
  if page_truthy popular_games_page
  then mret (all_popular_games ++ default [] popular_games_page)
  else
    _ ← logging_error [FStr "Failed to get popular games for page "; FInt page_number];
    mret all_popular_games.

(** The first loop of [load_games]: the value of [all_popular_games]. *)
Definition load_all_pages : M (list GameDetails) :=
  for_loop load_page [] (py_range 1 6).

(** [self.poster_grid_layout.add_widget(w)] *)
Definition add_poster (w : AsyncImage) : M unit :=
  modify (set_poster_grid_layout (λ l, l ++ [w])).

(** One iteration of the second loop of [load_games]. *)
Definition show_poster (_ : unit) (game_details : GameDetails) : M unit :=
  let background_image := background_image game_details in
  if truthy background_image
  then
    try_except
      (game_poster ← lift (new_AsyncImage background_image 300);
       add_poster (bind_on_release game_poster show_game_details_cb))
      [ (Exception, λ image_error,
           _ ← logging_error [FStr "Error loading poster: "; FExn image_error];
           modify (set_error_label poster_error)) ]
  else
    logging_warning
      [FStr "No image available for the game: "; FVal (name game_details)].

(** The [try] block of [load_games]. *)
Definition load_games_try : M unit :=
  all_popular_games ← load_all_pages;
  for_loop show_poster tt all_popular_games.

(** The [except] clause of [load_games]. *)
Definition load_games_except (general_error : exn) : M unit :=
  _ ← modify (set_error_label (general_error_text general_error));
  s ← (λ s, (Ret s, s)) : M State;
  logging_error (error_label s).

(** [self.loading_popup.dismiss()] *)
Definition loading_popup_dismiss : M unit :=
  modify (set_loading_popup_open false).

(** The [try]/[except]/[finally] statement of [load_games] around an
    arbitrary block. *)
Definition load_games_guarded (block : M unit) : M unit :=
  try_finally
    (try_except block [ (Exception, load_games_except) ])
    loading_popup_dismiss.

Definition load_games (dt : Z) : M unit :=
  load_games_guarded load_games_try.

(** [self.screen_manager.add_widget(screen)]: the first screen added
    becomes the current one. *)
Definition screen_manager_add (screen_name : string) : M unit := λ s,
  let s' := set_screens (λ l, l ++ [screen_name]) s in
  (Ret tt, match current s with
           | None => set_current (Some screen_name) s'
           | Some _ => s'
           end).

(** [self.screen_manager.current = screen_name]: Kivy stores the name and
    then looks the screen up, which fails for an unknown name. *)
Definition screen_manager_set_current (screen_name : string) : M unit := λ s,
  if bool_decide (current s = Some screen_name) then (Ret tt, s)
  else if bool_decide (screen_name ∈ screens s)
  then (Ret tt, set_current (Some screen_name) s)
  else (Raise (mk_exn ScreenManagerException
                 ("No Screen with name " +:+ screen_name)),
        set_current (Some screen_name) s).

Definition show_game_details : M unit :=
  _ ← modify (set_detail_screen []);
  _ ← modify (set_detail_screen
                [DLabel "Game Name"; DLabel "Game Description";
                 DLabel "Release Date"; DButton "Back" [go_back_cb]]);
  screen_manager_set_current "Detail Screen".

Definition go_back : M unit :=
  screen_manager_set_current "Main Screen".

Definition build : M Root :=
  _ ← modify (λ s, set_current None (set_screens (λ _, []) s));
  _ ← modify (set_error_label [FStr EmptyString]);
  _ ← modify (set_poster_grid_layout (λ _, []));
  _ ← modify (set_loading_popup_open true);
  if negb (truthy (PStr api_key))
  then
    _ ← modify (set_error_label api_key_error);
    _ ← loading_popup_dismiss;
    mret RootLayout
  else
    _ ← modify (set_clock (λ l, l ++ [(load_games_cb, 1)]));
    _ ← screen_manager_add "Main Screen";
    _ ← screen_manager_add "Detail Screen";
    mret RootScreenManager.

(** ** The event loop *)

Definition call (cb : Callback) : M unit :=
  match cb with
  | load_games_cb => load_games 1
  | show_game_details_cb => show_game_details
  | go_back_cb => go_back
  end.

Definition call_all (cbs : list Callback) : M unit :=
  for_loop (λ _ cb, call cb) tt cbs.

Inductive Event : Type :=
| ClockTick                (* the clock fires what was scheduled *)
| Tap (i : nat)            (* the [i]-th tile of the grid is touched *)
| PressBack                (* the button of the detail screen is released *)
| DismissPopup.            (* a touch outside the open loading popup, or
                              Escape while it is open *)

Definition button_handlers (w : DetailWidget) : list Callback :=
  match w with
  | DLabel _ => []
  | DButton _ hs => hs
  end.

(** What Kivy does with an event.  A touch on a widget runs the
    callbacks bound to its [on_release], which only a button can have.
    The loading popup is created with the default [auto_dismiss], so a
    touch outside it, or Escape, dismisses it. *)
Definition dispatch (ev : Event) : M unit := λ s,
  match ev with
  | ClockTick => call_all (clock s).*1 (set_clock (λ _, []) s)
  | Tap i =>
      match poster_grid_layout s !! i with
      | Some tile => call_all (on_release tile) s
      | None => (Ret tt, s)
      end
  | PressBack => call_all (detail_screen s ≫= button_handlers) s
  | DismissPopup =>
      if loading_popup_open s
      then (Ret tt, set_loading_popup_open false s)
      else (Ret tt, s)
  end.

(** [GamePosterApp().run()]: [build], then the events in turn; an
    exception that leaves a callback ends the run. *)
Definition run (events : list Event) : M unit :=
  _ ← build;
  for_loop (λ _ ev, dispatch ev) tt events.

End Program.

(** ** The whole program *)

(** What the program is run in: the process environment, the entries of
    the [.env] file and the remote API. *)
Record World : Type := mk_World {
  environ : gmap string string;
  dotenv : gmap string string;
  network : Network;
}.

Definition main (w : World) (events : list Event) : outcome unit * State :=
  run (network w) (api_key_of (environ w) (dotenv w)) events initial_state.

(** * Vocabulary of the specification *)

(** ** The page decoder *)

(** The request [fetch_popular_games] sends for a page. *)
Definition page_request (api_key : string) (page_number : Z) : Request :=
  mk_Request game_api_base_url (mk_Params api_key page_number 10).

(** The records of a page, computed from the reply of the network as the
    [try] block of [fetch_popular_games] does. *)
Definition page_records (net : Network) (api_key : string) (page_number : Z)
    : outcome (list GameDetails) :=
  response ← net (page_request api_key page_number);
  _ ← raise_for_status response;
  body ← json response;
  games ← py_get body "results" (PList []);
  items ← py_iter games;
  mapM decode_game items.

Definition record_sent (api_key : string) (page_number : Z) (s : State) : State :=
  set_sent (λ l, l ++ [page_request api_key page_number]) s.

Definition record_error (msg : text) (s : State) : State :=
  set_log (λ l, l ++ [mk_LogRecord ERROR msg]) s.

(** ** Replies of the remote API *)

(** The reply to the request for a page is a response that
    [raise_for_status] accepts and whose body is a JSON object with the
    array [items] under [results]. *)
Definition page_reply (net : Network) (api_key : string) (page_number : Z)
    (items : list pyval) : Prop :=
  ∃ response d,
    net (page_request api_key page_number) = Ret response ∧
    raise_for_status response = Ret tt ∧
    json response = Ret (PDict d) ∧
    d !! "results" = Some (PList items).

(** An item that is a JSON object without [name]. *)
Definition lacks_name (item : pyval) : Prop :=
  ∃ g, item = PDict g ∧ g !! "name" = None.

(** An item that is a JSON object with [name]. *)
Definition has_name (item : pyval) : Prop :=
  ∃ g, item = PDict g ∧ is_Some (g !! "name").

(** The exception [raise_for_status] raises for a 4xx or 5xx response. *)
Definition http_error (response : Response) : exn :=
  mk_exn HTTPError
    (pretty (status_code response) +:+
     (if status_code response <? 500 then " Client Error: " else " Server Error: ") +:+
     reason response +:+ " for url: " +:+ response_url response).

(** The HTTP request for a page fails with [e]: [requests.get] raises
    the [RequestException] [e] (a connection failure, say), or the
    response has a 4xx or 5xx status and [e] is the [HTTPError] for
    it. *)
Definition request_failure (net : Network) (api_key : string) (page_number : Z)
    (e : exn) : Prop :=
  (net (page_request api_key page_number) = Raise e ∧
   isinstance e RequestException = true) ∨
  (∃ response,
     net (page_request api_key page_number) = Ret response ∧
     400 ≤ status_code response < 600 ∧
     e = http_error response).

(** The sentinel a decoded record carries for every optional field its
    item [g] lacks. *)
Definition sentinels (g : gmap string pyval) (r : GameDetails) : Prop :=
  (g !! "description" = None → description r = PStr "No description available") ∧
  (g !! "released" = None → release_date r = PStr "Unknown release date") ∧
  (g !! "background_image" = None → background_image r = PStr EmptyString).

(** The records the specification expects from a page with malformed
    items: every item that decodes, in the order of the response, the
    others being skipped. *)
Definition lenient_records (items : list pyval) : list GameDetails :=
  omap (λ item, match decode_game item with
                | Ret r => Some r
                | Raise _ => None
                end) items.

(** ** Sample replies *)

Definition portal_item : pyval :=
  PDict {[ "name" := PStr "Portal";
           "background_image" := PStr "https://media.rawg.io/portal.jpg" ]}.

Definition nameless_item : pyval :=
  PDict {[ "released" := PStr "2020-01-01" ]}.

Definition doom_item : pyval :=
  PDict {[ "name" := PStr "Doom";
           "description" := PStr "A shooter";
           "released" := PStr "1993-12-10";
           "background_image" := PStr EmptyString ]}.

Definition ok_response (body : pyval) : outcome Response :=
  Ret (mk_Response 200 "OK" game_api_base_url (Ret body)).

(** A remote API whose pages show the different replies: page 1 has an
    item without [name], page 2 is well formed, page 3 is answered with
    status 404, page 4 cannot be reached, page 5 has no [results]. *)
Definition sample_net : Network := λ req,
  match page (params req) with
  | 1 => ok_response (PDict {[ "results" := PList [portal_item; nameless_item] ]})
  | 2 => ok_response (PDict {[ "results" := PList [portal_item; doom_item] ]})
  | 3 => Ret (mk_Response 404 "Not Found" game_api_base_url
                (Ret (PDict {[ "detail" := PStr "Not found." ]})))
  | 4 => Raise (mk_exn ConnectionError "Connection refused")
  | _ => ok_response (PDict ∅)
  end.

(** ** Effects of the first loop *)

(** The state after [extra] has been appended to the log and [reqs] to
    the requests sent. *)
Definition extend (extra : list LogRecord) (reqs : list Request) (s : State) : State :=
  set_log (λ l, l ++ extra) (set_sent (λ l, l ++ reqs) s).

(** What [fetch_popular_games] returns for a page (the state it is
    called in has no influence on it). *)
Definition page_result (net : Network) (api_key : string) (page_number : Z)
    : outcome (option (list GameDetails)) :=
  (fetch_popular_games net api_key page_number initial_state).1.

Definition failed_page_record (page_number : Z) : LogRecord :=
  mk_LogRecord ERROR [FStr "Failed to get popular games for page "; FInt page_number].

(** A remote API with ten well-formed games on every page. *)
Definition full_page_items (page_number : Z) : list pyval :=
  (λ i, PDict {[ "name" := PInt (10 * (page_number - 1) + i);
                 "background_image" := PStr "https://media.rawg.io/cover.jpg" ]})
    <$> seqZ 0 10.

Definition full_net : Network := λ req,
  ok_response (PDict {[ "results" := PList (full_page_items (page (params req))) ]}).

Definition full_page_records (page_number : Z) : list GameDetails :=
  (λ i, mk_GameDetails (PInt (10 * (page_number - 1) + i))
          (PStr "No description available") (PStr "Unknown release date")
          (PStr "https://media.rawg.io/cover.jpg"))
    <$> seqZ 0 10.

(** What [fetch_popular_games] returns for the pages of [sample_net]. *)
Definition sample_pages (page_number : Z) : option (list GameDetails) :=
  match page_result sample_net "k" page_number with
  | Ret r => r
  | Raise _ => None
  end.

(** ** Effects of the second loop *)

(** The tiles and the log entries one record gives rise to. *)
Definition poster_tiles (game_details : GameDetails) : list AsyncImage :=
  poster_grid_layout (show_poster tt game_details initial_state).2.

Definition poster_log (game_details : GameDetails) : list LogRecord :=
  log (show_poster tt game_details initial_state).2.

Definition no_image_record (game_details : GameDetails) : LogRecord :=
  mk_LogRecord WARNING
    [FStr "No image available for the game: "; FVal (name game_details)].

(** The navigation state: what the second loop leaves alone. *)
Definition same_navigation (s s' : State) : Prop :=
  sent s' = sent s ∧ loading_popup_open s' = loading_popup_open s ∧
  screens s' = screens s ∧ current s' = current s ∧
  detail_screen s' = detail_screen s ∧ clock s' = clock s.

Definition sample_catalog : list GameDetails :=
  [ mk_GameDetails (PStr "Portal") (PStr "No description available")
      (PStr "Unknown release date") (PStr "https://media.rawg.io/portal.jpg");
    mk_GameDetails (PStr "Doom") (PStr "A shooter") (PStr "1993-12-10")
      (PStr EmptyString) ].

(** ** Cleanup *)

(** The state [load_games] is left in when its block raises the
    [Exception] [e] in state [s]: the error is shown, logged, and the
    popup is dismissed. *)
Definition after_general_error (e : exn) (s : State) : State :=
  set_loading_popup_open false
    (record_error (general_error_text e)
       (set_error_label (general_error_text e) s)).

(** A block that fails with an [Exception] after some work. *)
Definition failing_block : M unit :=
  _ ← logging_warning [FStr "about to fail"];
  lift (Raise (mk_exn ValueError "unexpected")).

(** ** Navigation *)

Definition detail_widgets : list DetailWidget :=
  [DLabel "Game Name"; DLabel "Game Description";
   DLabel "Release Date"; DButton "Back" [go_back_cb]].

(** What [load_games] may change: it extends the log, the requests and
    the grid (with tiles that have no callback), and may set the error
    label and dismiss the popup. *)
Definition grid_extended (s s' : State) : Prop :=
  screens s' = screens s ∧ current s' = current s ∧
  detail_screen s' = detail_screen s ∧ clock s' = clock s ∧
  ∃ tiles,
    poster_grid_layout s' = poster_grid_layout s ++ tiles ∧
    Forall (λ t, on_release t = []) tiles.

(** The states of an application that started with an API key: the main
    screen is the current one, the detail screen is empty, no tile has a
    callback and only [load_games] is ever scheduled. *)
Definition main_screen_shown (s : State) : Prop :=
  screens s = ["Main Screen"; "Detail Screen"] ∧
  current s = Some "Main Screen" ∧
  detail_screen s = [] ∧
  Forall (λ t, on_release t = []) (poster_grid_layout s) ∧
  Forall (λ c : Callback * Z, c.1 = load_games_cb) (clock s).

(** The states of an application that started without an API key. *)
Definition startup_failed (s : State) : Prop :=
  error_label s = api_key_error ∧
  loading_popup_open s = false ∧
  sent s = [] ∧
  clock s = [] ∧
  poster_grid_layout s = [] ∧
  detail_screen s = [] ∧
  screens s = [] ∧
  current s = None.

(** * Further vocabulary *)

(** ** Shapes of replies *)

(** Everything but the log and the requests sent is the same. *)
Definition ui_unchanged (s s' : State) : Prop :=
  error_label s' = error_label s ∧
  poster_grid_layout s' = poster_grid_layout s ∧
  loading_popup_open s' = loading_popup_open s ∧
  screens s' = screens s ∧
  current s' = current s ∧
  detail_screen s' = detail_screen s ∧
  clock s' = clock s.

(** A record holds, for every field its item [g] has, the value of the
    item as it is (a JSON [null] included). *)
Definition copies (g : gmap string pyval) (r : GameDetails) : Prop :=
  g !! "name" = Some (name r) ∧
  (∀ v, g !! "description" = Some v → description r = v) ∧
  (∀ v, g !! "released" = Some v → release_date r = v) ∧
  (∀ v, g !! "background_image" = Some v → background_image r = v).

(** A body that is not a JSON object, or whose [results] is [null], a
    boolean or a number. *)
Definition unexpected_shape (body : pyval) : Prop :=
  match body with
  | PDict d =>
      match d !! "results" with
      | Some (PNone | PBool _ | PInt _ | PFloat _) => True
      | _ => False
      end
  | _ => True
  end.

Definition celeste_item : pyval :=
  PDict {[ "name" := PStr "Celeste";
           "description" := PNone;
           "background_image" := PNone ]}.

(** A remote API with one more kind of reply per page: page 1 has a game
    with [null] fields, page 2 has [null] for [results], the body of
    page 3 is not JSON, page 4 is interrupted from the keyboard, and the
    body of the other pages is a JSON array. *)
Definition odd_net : Network := λ req,
  match page (params req) with
  | 1 => ok_response (PDict {[ "results" := PList [portal_item; celeste_item] ]})
  | 2 => ok_response (PDict {[ "results" := PNone ]})
  | 3 => Ret (mk_Response 200 "OK" game_api_base_url
                (Raise (mk_exn InvalidJSONError "Expecting value")))
  | 4 => Raise (mk_exn KeyboardInterrupt EmptyString)
  | _ => ok_response (PList [])
  end.

(** ** Posters *)

(** The URL a record has a poster for: a non-empty string. *)
Definition poster_url (game_details : GameDetails) : option string :=
  match background_image game_details with
  | PStr EmptyString => None
  | PStr u => Some u
  | _ => None
  end.

Definition odd_catalog : list GameDetails :=
  [ mk_GameDetails (PStr "Portal") (PStr "No description available")
      (PStr "Unknown release date") (PStr "https://media.rawg.io/portal.jpg");
    mk_GameDetails (PStr "Quake") (PStr "No description available")
      (PStr "Unknown release date") (PInt 5);
    mk_GameDetails (PStr "Celeste") PNone (PStr "Unknown release date") PNone;
    mk_GameDetails (PStr "Hades") (PStr "No description available")
      (PStr "Unknown release date") (PStr "https://media.rawg.io/hades.jpg") ].

(** ** Phases of a run *)

(** Before the clock has fired: [load_games] is scheduled, [requests.get]
    has not been called, the grid is empty, and the popup is open unless
    the user has dismissed it. *)
Definition waiting (events : list Event) (s : State) : Prop :=
  (ClockTick ∉ events) ∧
  clock s = [(load_games_cb, 1)] ∧
  (DismissPopup ∉ events → loading_popup_open s = true) ∧
  sent s = [] ∧
  poster_grid_layout s = [].

(** After the clock has fired and [load_games] has returned: nothing is
    scheduled any more, the popup is dismissed and [requests.get] has
    been called for the five pages. *)
Definition started (api_key : string) (events : list Event) (s : State) : Prop :=
  (ClockTick ∈ events) ∧
  clock s = [] ∧
  loading_popup_open s = false ∧
  sent s = page_request api_key <$> [1; 2; 3; 4; 5].

(** The calls of [requests.get] are the first ones of those for pages 1
    to 5. *)
Definition at_most_five_requests (api_key : string) (s : State) : Prop :=
  ∃ n, (n ≤ 5)%nat ∧ sent s = page_request api_key <$> take n [1; 2; 3; 4; 5].

(** ** From items to posters *)

(** The URL of the poster an item of the API gets: its
    [background_image] when that is a non-empty string. *)
Definition item_poster_url (g : gmap string pyval) : option string :=
  match g !! "background_image" with
  | Some (PStr EmptyString) => None
  | Some (PStr u) => Some u
  | _ => None
  end.

Definition poster_tile (u : string) : AsyncImage :=
  mk_AsyncImage u 300 [].

(** ** A status that is neither 2xx nor an error *)

(** A remote API that answers every request with status 300 and a body
    that has one game. *)
Definition redirect_net : Network := λ req,
  Ret (mk_Response 300 "Multiple Choices" game_api_base_url
         (Ret (PDict {[ "results" := PList [portal_item] ]}))).

(** A page whose first item is not an object and whose second item is an
    object without [name]. *)
Definition mixed_net : Network := λ req,
  ok_response (PDict {[ "results" := PList [PInt 5; nameless_item] ]}).

(** ** The item a page fails on *)

(** An item that is a JSON object. *)
Definition is_object (item : pyval) : Prop := ∃ g, item = PDict g.

(** [item] is the first item of [items] that does not decode, and
    decoding it raises [e]: every item before it is an object with
    [name]. *)
Definition first_failure (items : list pyval) (item : pyval) (e : exn) : Prop :=
  ∃ before after,
    items = before ++ item :: after ∧
    Forall has_name before ∧
    decode_game item = Raise e.

(** * Verification *)

(** ** Running the monad *)

Lemma bind_run {A B} (m : M A) (f : A → M B) (s : State) :
  (m ≫= f) s =
  match m s with
  | (Ret a, s') => f a s'
  | (Raise e, s') => (Raise e, s')
  end.
Proof. reflexivity. Qed.

Lemma for_loop_app {A B} (body : B → A → M B) (l1 l2 : list A) (acc : B) (s : State) :
  for_loop body acc (l1 ++ l2) s =
  match for_loop body acc l1 s with
  | (Ret acc', s') => for_loop body acc' l2 s'
  | (Raise e, s') => (Raise e, s')
  end.
Proof.
  revert acc s. induction l1 as [|x l1 IH]; intros acc s; simpl.
  - reflexivity.
  - rewrite !bind_run. destruct (body acc x s) as [[acc'|e] s']; [apply IH | reflexivity].
Qed.

Lemma fetch_popular_games_try_run net api_key page_number s :
  fetch_popular_games_try net api_key page_number s =
  (match page_records net api_key page_number with
   | Ret l => Ret (Some l)
   | Raise e => Raise e
   end, record_sent api_key page_number s).
Proof.
  unfold fetch_popular_games_try, page_records, requests_get, page_request, record_sent.
  unfold lift, mbind, M_bind, outcome_bind, mret, M_ret.
  destruct (net _) as [response|e]; [|reflexivity].
  destruct (raise_for_status response) as [[]|e]; [|reflexivity].
  destruct (json response) as [body|e]; [|reflexivity].
  destruct (py_get body "results" (PList [])) as [games|e]; [|reflexivity].
  destruct (py_iter games) as [items|e]; [|reflexivity].
  destruct (mapM decode_game items) as [records|e]; reflexivity.
Qed.

(** [fetch_popular_games] in one step: the request is recorded; a page
    that decodes is returned; an [Exception] is logged and turned into
    [None]; anything else propagates. *)
Lemma fetch_popular_games_run net api_key page_number s :
  fetch_popular_games net api_key page_number s =
  match page_records net api_key page_number with
  | Ret l => (Ret (Some l), record_sent api_key page_number s)
  | Raise e =>
      if isinstance e RequestException
      then (Ret None,
            record_error [FStr "Request error occurred: "; FExn e]
              (record_sent api_key page_number s))
      else if isinstance e Exception
      then (Ret None,
            record_error [FStr "Unexpected error: "; FExn e]
              (record_sent api_key page_number s))
      else (Raise e, record_sent api_key page_number s)
  end.
Proof.
  unfold fetch_popular_games, try_except.
  rewrite fetch_popular_games_try_run.
  destruct (page_records net api_key page_number) as [l|e]; [reflexivity|].
  cbn [List.find fst snd].
  destruct (isinstance e RequestException); [reflexivity|].
  destruct (isinstance e Exception); reflexivity.
Qed.

(** ** Decoding one item *)

Lemma decode_game_dict (g : gmap string pyval) (n : pyval) :
  g !! "name" = Some n →
  decode_game (PDict g) =
  Ret (mk_GameDetails n
         (default (PStr "No description available") (g !! "description"))
         (default (PStr "Unknown release date") (g !! "released"))
         (default (PStr EmptyString) (g !! "background_image"))).
Proof. intros Hn. unfold decode_game. simpl. rewrite Hn. reflexivity. Qed.

Lemma decode_game_no_name (g : gmap string pyval) :
  g !! "name" = None →
  decode_game (PDict g) = Raise (mk_exn KeyError "'name'").
Proof. intros Hn. unfold decode_game. simpl. rewrite Hn. reflexivity. Qed.

(** Whatever [decode_game] raises is a [KeyError] or a [TypeError]. *)
Lemma decode_game_raises (v : pyval) (e : exn) :
  decode_game v = Raise e →
  exn_class_of e = KeyError ∨ exn_class_of e = TypeError.
Proof.
  unfold decode_game. destruct v; simpl; try (intros [= <-]; simpl; auto; fail).
  destruct (d !! "name"); simpl; [discriminate|].
  intros [= <-]. simpl. auto.
Qed.

(** A record is decoded only from a dictionary that has a [name]. *)
Lemma decode_game_Ret (v : pyval) (r : GameDetails) :
  decode_game v = Ret r →
  ∃ g, v = PDict g ∧ g !! "name" = Some (name r) ∧ decode_game (PDict g) = Ret r.
Proof.
  intros H. destruct v; try discriminate H.
  exists d. split; [reflexivity|]. split; [|exact H].
  unfold decode_game in H. simpl in H.
  destruct (d !! "name") as [n|]; simpl in H; [|discriminate].
  injection H as <-. reflexivity.
Qed.

(** ** The list comprehension *)

Lemma mapM_outcome_Ret {A B} (f : A → outcome B) (l : list A) (k : list B) :
  mapM f l = Ret k ↔ Forall2 (λ x y, f x = Ret y) l k.
Proof.
  split.
  - revert k. induction l as [|x l IH]; intros k; simpl.
    + intros [= <-]. constructor.
    + destruct (f x) as [y|e] eqn:Hx; simpl; [|discriminate].
      destruct (mapM f l) as [k'|e]; simpl; [|discriminate].
      intros [= <-]. constructor; [exact Hx | apply IH; reflexivity].
  - induction 1 as [|x y l k Hx _ IH]; simpl; [reflexivity|].
    rewrite Hx. simpl. rewrite IH. reflexivity.
Qed.

(** The comprehension raises what the first failing element raises. *)
Lemma mapM_outcome_Raise {A B} (f : A → outcome B) (l : list A) :
  Exists (λ x, ∃ e, f x = Raise e) l →
  ∃ x e, x ∈ l ∧ f x = Raise e ∧ mapM f l = Raise e.
Proof.
  induction l as [|x l IH]; intros H; [inversion H|].
  simpl. destruct (f x) as [y|e] eqn:Hx.
  - assert (Exists (λ x, ∃ e, f x = Raise e) l) as Hl.
    { inversion H as [? ? [e He]|]; subst; [congruence | assumption]. }
    destruct (IH Hl) as (x' & e & Hin & Hx' & Hm).
    exists x', e. split; [right; exact Hin|]. split; [exact Hx'|].
    simpl. rewrite Hm. reflexivity.
  - exists x, e. split; [left|]. split; [exact Hx | reflexivity].
Qed.

Lemma page_records_reply net api_key page_number items :
  page_reply net api_key page_number items →
  page_records net api_key page_number = mapM decode_game items.
Proof.
  intros (response & d & Hnet & Hst & Hjs & Hres).
  unfold page_records. rewrite Hnet. simpl. rewrite Hst. simpl.
  rewrite Hjs. simpl. rewrite Hres. reflexivity.
Qed.

(** ** Network errors *)

Lemma raise_for_status_error (response : Response) :
  400 ≤ status_code response < 600 →
  raise_for_status response = Raise (http_error response).
Proof.
  intros Hst. unfold raise_for_status, http_error.
  destruct (decide (status_code response < 500)) as [Hlt | Hge].
  - replace (400 <=? status_code response) with true by lia.
    replace (status_code response <? 500) with true by lia. reflexivity.
  - replace (status_code response <? 500) with false by lia.
    rewrite andb_false_r.
    replace (500 <=? status_code response) with true by lia.
    replace (status_code response <? 600) with true by lia. reflexivity.
Qed.

Lemma raise_for_status_accepts (response : Response) :
  ¬ (400 ≤ status_code response < 600) →
  raise_for_status response = Ret tt.
Proof.
  intros Hst. unfold raise_for_status.
  destruct (decide (400 ≤ status_code response)) as [Hge | Hlt].
  - replace (status_code response <? 500) with false by lia.
    replace (status_code response <? 600) with false by lia.
    rewrite !andb_false_r. reflexivity.
  - replace (400 <=? status_code response) with false by lia.
    replace (500 <=? status_code response) with false by lia. reflexivity.
Qed.

(** C2, as the code has it.  For every page fetch during which
    [requests.get] raises a [RequestException] (a connection failure) or
    the response has a 4xx or 5xx status, [fetch_popular_games] returns
    [None]: the outcome is a return, not a raise, and the error is
    written to the log. *)
Theorem fetch_request_failure_returns_None
    (net : Network) (api_key : string) (page_number : Z) (s : State) (e : exn) :
  request_failure net api_key page_number e →
  fetch_popular_games net api_key page_number s =
  (Ret None,
   record_error [FStr "Request error occurred: "; FExn e]
     (record_sent api_key page_number s)).
Proof.
  intros Herr. rewrite fetch_popular_games_run.
  assert (page_records net api_key page_number = Raise e ∧
          isinstance e RequestException = true) as [-> ->]; [|reflexivity].
  destruct Herr as [[Hnet Hcls] | (response & Hnet & Hst & ->)].
  - unfold page_records. rewrite Hnet. split; [reflexivity | exact Hcls].
  - unfold page_records. rewrite Hnet. simpl.
    rewrite (raise_for_status_error response Hst). split; reflexivity.
Qed.

Lemma fetch_request_failure_returns_None_witness :
  let e := mk_exn HTTPError
             "404 Client Error: Not Found for url: https://api.rawg.io/api/games" in
  request_failure sample_net "k" 3 e ∧
  fetch_popular_games sample_net "k" 3 initial_state =
  (Ret None,
   record_error [FStr "Request error occurred: "; FExn e]
     (record_sent "k" 3 initial_state)).
Proof.
  intros e.
  assert (request_failure sample_net "k" 3 e) as H.
  { right. eexists. split; [reflexivity|]. split; [simpl; lia | reflexivity]. }
  split; [exact H|].
  exact (fetch_request_failure_returns_None sample_net "k" 3 initial_state e H).
Defined.

(** C2, as the specification states it, fails: a status outside 2xx
    need not be an error.  [redirect_net] answers with status 300 and a
    body that has one game; [raise_for_status] accepts it, and the page
    is decoded and returned. *)
Lemma fetch_non_2xx_status_counterexample :
  (∃ response,
     redirect_net (page_request "k" 1) = Ret response ∧
     ¬ (200 ≤ status_code response < 300)) ∧
  (fetch_popular_games redirect_net "k" 1 initial_state).1 =
    Ret (Some [mk_GameDetails (PStr "Portal") (PStr "No description available")
                 (PStr "Unknown release date")
                 (PStr "https://media.rawg.io/portal.jpg")]) ∧
  (fetch_popular_games redirect_net "k" 1 initial_state).1 ≠ Ret None.
Proof.
  split; [eexists; split; [reflexivity | simpl; lia]|].
  split; [reflexivity | discriminate].
Qed.

(** An exception that is not an [Exception] is not caught. *)
Lemma fetch_popular_games_interrupt net api_key page_number s e :
  net (page_request api_key page_number) = Raise e →
  isinstance e Exception = false →
  fetch_popular_games net api_key page_number s =
  (Raise e, record_sent api_key page_number s).
Proof.
  intros Hnet Hcls. rewrite fetch_popular_games_run.
  replace (page_records net api_key page_number) with (@Raise (list GameDetails) e)
    by (unfold page_records; rewrite Hnet; reflexivity).
  destruct (isinstance e RequestException) eqn:Hreq; [|rewrite Hcls; reflexivity].
  unfold isinstance in *. destruct (exn_class_of e); discriminate.
Qed.

(** ** Decoded records *)

(** C3. For every page whose items all contain [name], every record
    [fetch_popular_games] decodes carries, for each of [description],
    [released] and [background_image] that its item lacks, the sentinel:
    'No description available', 'Unknown release date' and the empty
    string. *)
Theorem fetch_decodes_with_sentinels
    (net : Network) (api_key : string) (page_number : Z) (s : State)
    (items : list pyval) :
  page_reply net api_key page_number items →
  Forall has_name items →
  ∃ records,
    fetch_popular_games net api_key page_number s =
      (Ret (Some records), record_sent api_key page_number s) ∧
    Forall2 (λ item r, ∃ g, item = PDict g ∧ g !! "name" = Some (name r) ∧
                            sentinels g r) items records.
Proof.
  intros Hreply Hitems.
  rewrite fetch_popular_games_run, (page_records_reply _ _ _ _ Hreply).
  assert (∃ records, Forall2 (λ item r, decode_game item = Ret r) items records)
    as [records Hrec].
  { clear Hreply. induction Hitems as [|item items (g & -> & n & Hn) _ [records IH]].
    - exists []. constructor.
    - eexists (_ :: records). constructor; [|exact IH].
      apply (decode_game_dict g n Hn). }
  exists records. split.
  - apply mapM_outcome_Ret in Hrec. rewrite Hrec. reflexivity.
  - eapply Forall2_impl; [exact Hrec|].
    intros item r Hdec. cbv beta in Hdec.
    destruct (decode_game_Ret _ _ Hdec) as (g & -> & Hn & _).
    exists g. split; [reflexivity|]. split; [exact Hn|].
    rewrite (decode_game_dict g _ Hn) in Hdec. injection Hdec as <-.
    unfold sentinels. simpl.
    repeat split; intros ->; reflexivity.
Qed.

Lemma fetch_decodes_with_sentinels_witness :
  page_reply sample_net "k" 2 [portal_item; doom_item] ∧
  Forall has_name [portal_item; doom_item] ∧
  ∃ records,
    fetch_popular_games sample_net "k" 2 initial_state =
      (Ret (Some records), record_sent "k" 2 initial_state) ∧
    Forall2 (λ item r, ∃ g, item = PDict g ∧ g !! "name" = Some (name r) ∧
                            sentinels g r) [portal_item; doom_item] records.
Proof.
  assert (page_reply sample_net "k" 2 [portal_item; doom_item]) as Hreply.
  { eexists _, _. repeat split; reflexivity. }
  assert (Forall has_name [portal_item; doom_item]) as Hitems.
  { repeat constructor; eexists; (split; [reflexivity|]); eexists; reflexivity. }
  split; [exact Hreply|]. split; [exact Hitems|].
  exact (fetch_decodes_with_sentinels sample_net "k" 2 initial_state _ Hreply Hitems).
Defined.

(** ** Items without a name *)

(** The comprehension raises exactly when some element fails, and what
    it raises is what the first failing element raises. *)
Lemma mapM_outcome_Raise_first {A B} (f : A → outcome B) (l : list A) (e : exn) :
  mapM f l = Raise e →
  ∃ l1 x l2, l = l1 ++ x :: l2 ∧ Forall (λ y, ∃ r, f y = Ret r) l1 ∧ f x = Raise e.
Proof.
  induction l as [|x l IH]; simpl; [discriminate|].
  destruct (f x) as [y|e'] eqn:Hx; simpl.
  - destruct (mapM f l) as [k|e''] eqn:Hl; simpl; [discriminate|].
    intros [= ->]. destruct (IH eq_refl) as (l1 & x' & l2 & -> & Hl1 & Hx').
    exists (x :: l1), x', l2. split; [reflexivity|]. split; [|exact Hx'].
    constructor; [eauto | exact Hl1].
  - intros [= ->]. exists [], x, l. split; [reflexivity|]. split; [constructor | exact Hx].
Qed.

(** An item that is not an object fails with a [TypeError], and an
    object that fails does so with the [KeyError] for [name]. *)
Lemma decode_game_raises_by_shape (v : pyval) (e : exn) :
  decode_game v = Raise e →
  (is_object v → e = mk_exn KeyError "'name'") ∧
  (¬ is_object v → exn_class_of e = TypeError).
Proof.
  intros Hdec. split.
  - intros [g ->]. destruct (g !! "name") as [n|] eqn:Hn.
    + rewrite (decode_game_dict g n Hn) in Hdec. discriminate.
    + rewrite (decode_game_no_name g Hn) in Hdec. injection Hdec as <-. reflexivity.
  - intros Hnot. unfold decode_game in Hdec.
    destruct v; simpl in Hdec; try (injection Hdec as <-; reflexivity).
    destruct Hnot. eexists. reflexivity.
Qed.

(** C1, as the code has it.  For every page whose [results] contain an
    object without [name], [fetch_popular_games] skips nothing: the
    first item that does not decode raises (the [KeyError] for [name] if
    it is an object, a [TypeError] if it is not), the page-level [except
    Exception] catches it, one "Unexpected error" entry is logged with
    it, and [None] is returned for the whole page; no exception
    propagates.  When every item is an object, the exception is the
    [KeyError] for [name]. *)
Theorem fetch_missing_name_fails_page
    (net : Network) (api_key : string) (page_number : Z) (s : State)
    (items : list pyval) :
  page_reply net api_key page_number items →
  Exists lacks_name items →
  ∃ item e,
    first_failure items item e ∧
    (is_object item → e = mk_exn KeyError "'name'") ∧
    (¬ is_object item → exn_class_of e = TypeError) ∧
    (Forall is_object items → e = mk_exn KeyError "'name'") ∧
    fetch_popular_games net api_key page_number s =
    (Ret None,
     record_error [FStr "Unexpected error: "; FExn e]
       (record_sent api_key page_number s)).
Proof.
  intros Hreply Hbad.
  rewrite fetch_popular_games_run, (page_records_reply _ _ _ _ Hreply).
  destruct (mapM_outcome_Raise decode_game items) as (item' & e & _ & _ & Hmap).
  { eapply Exists_impl; [exact Hbad|]. intros item (g & -> & Hn).
    eexists. apply (decode_game_no_name g Hn). }
  destruct (mapM_outcome_Raise_first decode_game items e Hmap)
    as (before & item & after & Hsplit & Hbefore & Hdec).
  destruct (decode_game_raises_by_shape item e Hdec) as [Hobject Hother].
  exists item, e. rewrite Hmap.
  split; [|split; [exact Hobject|split; [exact Hother|split]]].
  - exists before, after. split; [exact Hsplit|]. split; [|exact Hdec].
    eapply Forall_impl; [exact Hbefore|].
    intros y [r Hy]. destruct (decode_game_Ret _ _ Hy) as (g & -> & Hn & _).
    exists g. split; [reflexivity | eauto].
  - intros Hobj. subst items.
    apply Forall_app in Hobj as [_ Hobj]. apply Forall_cons in Hobj as [Hitem _].
    exact (Hobject Hitem).
  - apply decode_game_raises in Hdec.
    unfold isinstance. destruct Hdec as [-> | ->]; reflexivity.
Qed.

Lemma fetch_missing_name_fails_page_witness :
  page_reply sample_net "k" 1 [portal_item; nameless_item] ∧
  Exists lacks_name [portal_item; nameless_item] ∧
  Forall is_object [portal_item; nameless_item] ∧
  ∃ item e,
    first_failure [portal_item; nameless_item] item e ∧
    (is_object item → e = mk_exn KeyError "'name'") ∧
    (¬ is_object item → exn_class_of e = TypeError) ∧
    (Forall is_object [portal_item; nameless_item] → e = mk_exn KeyError "'name'") ∧
    fetch_popular_games sample_net "k" 1 initial_state =
    (Ret None,
     record_error [FStr "Unexpected error: "; FExn e] (record_sent "k" 1 initial_state)).
Proof.
  assert (page_reply sample_net "k" 1 [portal_item; nameless_item]) as Hreply.
  { eexists _, _. repeat split; reflexivity. }
  assert (Exists lacks_name [portal_item; nameless_item]) as Hbad.
  { right. left. eexists. split; reflexivity. }
  split; [exact Hreply|]. split; [exact Hbad|].
  split; [repeat constructor; eexists; reflexivity|].
  exact (fetch_missing_name_fails_page sample_net "k" 1 initial_state _ Hreply Hbad).
Defined.

(** When an item before the nameless one is not an object, the page is
    lost to the [TypeError] of that item and no [KeyError] occurs. *)
Example fetch_mixed_page_logs_TypeError :
  page_reply mixed_net "k" 1 [PInt 5; nameless_item] ∧
  first_failure [PInt 5; nameless_item] (PInt 5)
    (mk_exn TypeError "'int' object is not subscriptable") ∧
  fetch_popular_games mixed_net "k" 1 initial_state =
  (Ret None,
   record_error
     [FStr "Unexpected error: ";
      FExn (mk_exn TypeError "'int' object is not subscriptable")]
     (record_sent "k" 1 initial_state)).
Proof.
  split; [eexists _, _; repeat split; reflexivity|].
  split; [|reflexivity].
  exists [], [nameless_item]. split; [reflexivity|]. split; [constructor | reflexivity].
Qed.

(** C1, as the specification states it, fails.  Page 1 of [sample_net]
    holds Portal and an item without [name]: skipping the bad item would
    return the record of Portal, but the whole page is lost. *)
Lemma fetch_skips_bad_item_counterexample :
  page_reply sample_net "k" 1 [portal_item; nameless_item] ∧
  lacks_name nameless_item ∧
  lenient_records [portal_item; nameless_item] =
    [mk_GameDetails (PStr "Portal") (PStr "No description available")
       (PStr "Unknown release date") (PStr "https://media.rawg.io/portal.jpg")] ∧
  (fetch_popular_games sample_net "k" 1 initial_state).1 = Ret None ∧
  (fetch_popular_games sample_net "k" 1 initial_state).1 ≠
    Ret (Some (lenient_records [portal_item; nameless_item])).
Proof.
  split; [eexists _, _; repeat split; reflexivity|].
  split; [eexists; split; reflexivity|].
  split; [reflexivity|].
  split; [reflexivity|].
  discriminate.
Qed.

(** ** Empty pages *)

Lemma load_page_run net api_key all_popular_games page_number s :
  load_page net api_key all_popular_games page_number s =
  match fetch_popular_games net api_key page_number s with
  | (Ret popular_games_page, s') =>
      if page_truthy popular_games_page
      then (Ret (all_popular_games ++ default [] popular_games_page), s')
      else (Ret all_popular_games,
            record_error [FStr "Failed to get popular games for page "; FInt page_number] s')
  | (Raise e, s') => (Raise e, s')
  end.
Proof.
  unfold load_page. rewrite bind_run.
  destruct (fetch_popular_games net api_key page_number s) as [[r|e] s']; [|reflexivity].
  destruct (page_truthy r); reflexivity.
Qed.

(** C10. For every 2xx response whose JSON object lacks [results] or has
    an empty [results] array, [fetch_popular_games] returns the empty
    list, a success value, and logs nothing; the truth test of
    [load_games] is false for it as it is for [None], so the page is
    logged as failed and adds nothing to the list. *)
Theorem empty_page_succeeds_and_is_logged_as_failed
    (net : Network) (api_key : string) (page_number : Z) (s : State)
    (response : Response) (d : gmap string pyval)
    (all_popular_games : list GameDetails) :
  net (page_request api_key page_number) = Ret response →
  200 ≤ status_code response < 300 →
  json response = Ret (PDict d) →
  d !! "results" = None ∨ d !! "results" = Some (PList []) →
  fetch_popular_games net api_key page_number s =
    (Ret (Some []), record_sent api_key page_number s) ∧
  page_truthy (Some []) = page_truthy None ∧
  load_page net api_key all_popular_games page_number s =
    (Ret all_popular_games,
     record_error [FStr "Failed to get popular games for page "; FInt page_number]
       (record_sent api_key page_number s)).
Proof.
  intros Hnet Hst Hjs Hres.
  assert (fetch_popular_games net api_key page_number s =
          (Ret (Some []), record_sent api_key page_number s)) as Hfetch.
  { rewrite fetch_popular_games_run.
    replace (page_records net api_key page_number) with (@Ret (list GameDetails) []);
      [reflexivity|].
    unfold page_records. rewrite Hnet. simpl.
    rewrite (raise_for_status_accepts response) by lia.
    simpl. rewrite Hjs. simpl.
    destruct Hres as [-> | ->]; reflexivity. }
  split; [exact Hfetch|]. split; [reflexivity|].
  rewrite load_page_run, Hfetch. reflexivity.
Qed.

Lemma empty_page_succeeds_and_is_logged_as_failed_witness :
  fetch_popular_games sample_net "k" 5 initial_state =
    (Ret (Some []), record_sent "k" 5 initial_state) ∧
  page_truthy (Some []) = page_truthy None ∧
  load_page sample_net "k" [] 5 initial_state =
    (Ret [],
     record_error [FStr "Failed to get popular games for page "; FInt 5]
       (record_sent "k" 5 initial_state)).
Proof.
  apply (empty_page_succeeds_and_is_logged_as_failed sample_net "k" 5 initial_state
           (mk_Response 200 "OK" game_api_base_url (Ret (PDict ∅))) ∅ []).
  - reflexivity.
  - simpl. lia.
  - reflexivity.
  - left. reflexivity.
Defined.

(** ** The first loop of [load_games] *)

Lemma extend_extend e1 r1 e2 r2 s :
  extend e2 r2 (extend e1 r1 s) = extend (e1 ++ e2) (r1 ++ r2) s.
Proof. unfold extend, set_log, set_sent. simpl. rewrite !app_assoc. reflexivity. Qed.

Lemma extend_nil s : extend [] [] s = s.
Proof. destruct s. unfold extend, set_log, set_sent. simpl. rewrite !app_nil_r. reflexivity. Qed.

Lemma record_error_extend msg extra reqs s :
  record_error msg (extend extra reqs s) =
  extend (extra ++ [mk_LogRecord ERROR msg]) reqs s.
Proof.
  unfold record_error, extend, set_log, set_sent. simpl.
  rewrite app_assoc. reflexivity.
Qed.

(** The outcome of [fetch_popular_games] does not depend on the state;
    its effect is one request sent and, perhaps, log entries. *)
Lemma fetch_popular_games_effect net api_key page_number s :
  ∃ extra,
    fetch_popular_games net api_key page_number s =
    (page_result net api_key page_number,
     extend extra [page_request api_key page_number] s).
Proof.
  unfold page_result. rewrite !fetch_popular_games_run.
  destruct (page_records net api_key page_number) as [l|e].
  - exists []. simpl. f_equal. destruct s. unfold extend, record_sent, set_log, set_sent.
    simpl. rewrite app_nil_r. reflexivity.
  - destruct (isinstance e RequestException); [eexists [_]; reflexivity|].
    destruct (isinstance e Exception); [eexists [_]; reflexivity|].
    exists []. simpl. f_equal. destruct s. unfold extend, record_sent, set_log, set_sent.
    simpl. rewrite app_nil_r. reflexivity.
Qed.

(** One iteration, for a page whose fetch returns. *)
Lemma load_page_effect net api_key all_popular_games page_number s r :
  page_result net api_key page_number = Ret r →
  ∃ extra,
    load_page net api_key all_popular_games page_number s =
      (Ret (all_popular_games ++ default [] r),
       extend extra [page_request api_key page_number] s) ∧
    (page_truthy r = false → failed_page_record page_number ∈ extra).
Proof.
  intros Hr. rewrite load_page_run.
  destruct (fetch_popular_games_effect net api_key page_number s) as [extra ->].
  rewrite Hr. destruct (page_truthy r) eqn:Ht.
  - exists extra. split; [reflexivity | discriminate].
  - exists (extra ++ [failed_page_record page_number]). split.
    + f_equal.
      * destruct r as [[|]|]; simpl in *; try discriminate; rewrite app_nil_r; reflexivity.
      * unfold record_error, extend, set_log, set_sent. simpl.
        rewrite app_assoc. reflexivity.
    + intros _. apply elem_of_app. right. apply list_elem_of_singleton. reflexivity.
Qed.

(** The loop over any list of pages whose fetches return. *)
Lemma load_pages_effect net api_key (pages : Z → option (list GameDetails)) ps :
  (∀ p, p ∈ ps → page_result net api_key p = Ret (pages p)) →
  ∀ acc s, ∃ extra,
    for_loop (load_page net api_key) acc ps s =
      (Ret (acc ++ (ps ≫= λ p, default [] (pages p))),
       extend extra (page_request api_key <$> ps) s) ∧
    (∀ p, p ∈ ps → page_truthy (pages p) = false → failed_page_record p ∈ extra).
Proof.
  induction ps as [|p ps IH]; intros Hps acc s.
  - exists []. simpl. rewrite app_nil_r, extend_nil. split; [reflexivity|].
    intros p Hp. inversion Hp.
  - destruct (load_page_effect net api_key acc p s (pages p)) as (e1 & Hstep & Hlog).
    { apply Hps. left. }
    destruct (IH (λ q Hq, Hps q (list_elem_of_further _ _ _ Hq))
                (acc ++ default [] (pages p))
                (extend e1 [page_request api_key p] s)) as (e2 & Hrest & Hlog2).
    exists (e1 ++ e2). split.
    + simpl. rewrite bind_run, Hstep, Hrest, extend_extend, <- app_assoc. reflexivity.
    + intros q Hq Hf. apply elem_of_app. apply elem_of_cons in Hq as [-> | Hq].
      * left. apply Hlog, Hf.
      * right. apply Hlog2; assumption.
Qed.

Lemma py_range_1_6 : py_range 1 6 = [1; 2; 3; 4; 5].
Proof. reflexivity. Qed.

Lemma elem_of_pages p : p ∈ [1; 2; 3; 4; 5] ↔ 1 ≤ p ≤ 5.
Proof.
  rewrite !elem_of_cons, elem_of_nil. lia.
Qed.

(** A page that decodes is what [fetch_popular_games] returns. *)
Lemma page_result_decoded net api_key page_number items records :
  page_reply net api_key page_number items →
  Forall2 (λ item r, decode_game item = Ret r) items records →
  page_result net api_key page_number = Ret (Some records).
Proof.
  intros Hreply Hdec. unfold page_result.
  rewrite fetch_popular_games_run, (page_records_reply _ _ _ _ Hreply).
  apply mapM_outcome_Ret in Hdec. rewrite Hdec. reflexivity.
Qed.

(** C4. If each of the five page fetches succeeds with ten valid
    records ([records p] being the items of page [p] decoded in the
    order of the response), the list [load_games] builds is the records
    of page 1, then those of page 2, and so on to page 5: fifty records;
    it is the list the posters are made from. *)
Theorem five_full_pages_give_fifty_records
    (net : Network) (api_key : string) (s : State)
    (items : Z → list pyval) (records : Z → list GameDetails) :
  (∀ p, 1 ≤ p ≤ 5 →
     page_reply net api_key p (items p) ∧
     Forall2 (λ item r, decode_game item = Ret r) (items p) (records p) ∧
     length (records p) = 10%nat) →
  let catalog := records 1 ++ records 2 ++ records 3 ++ records 4 ++ records 5 in
  ∃ s',
    load_all_pages net api_key s = (Ret catalog, s') ∧
    load_games_try net api_key s = for_loop show_poster tt catalog s' ∧
    length catalog = 50%nat.
Proof.
  intros Hpages catalog.
  destruct (load_pages_effect net api_key (λ p, Some (records p)) [1; 2; 3; 4; 5])
    with (acc := @nil GameDetails) (s := s) as (extra & Hrun & _).
  { intros p Hp. apply elem_of_pages in Hp.
    destruct (Hpages p Hp) as (Hreply & Hdec & _).
    exact (page_result_decoded _ _ _ _ _ Hreply Hdec). }
  assert (load_all_pages net api_key s =
          (Ret catalog, extend extra (page_request api_key <$> [1; 2; 3; 4; 5]) s)) as Hall.
  { unfold load_all_pages. rewrite py_range_1_6, Hrun. simpl.
    rewrite app_nil_r. reflexivity. }
  eexists. split; [exact Hall|]. split.
  - unfold load_games_try. rewrite bind_run, Hall. reflexivity.
  - unfold catalog. rewrite !length_app.
    destruct (Hpages 1 ltac:(lia)) as (_ & _ & ->).
    destruct (Hpages 2 ltac:(lia)) as (_ & _ & ->).
    destruct (Hpages 3 ltac:(lia)) as (_ & _ & ->).
    destruct (Hpages 4 ltac:(lia)) as (_ & _ & ->).
    destruct (Hpages 5 ltac:(lia)) as (_ & _ & ->).
    reflexivity.
Qed.

Lemma five_full_pages_give_fifty_records_witness :
  let catalog := full_page_records 1 ++ full_page_records 2 ++ full_page_records 3 ++
                 full_page_records 4 ++ full_page_records 5 in
  ∃ s',
    load_all_pages full_net "k" initial_state = (Ret catalog, s') ∧
    load_games_try full_net "k" initial_state = for_loop show_poster tt catalog s' ∧
    length catalog = 50%nat.
Proof.
  apply (five_full_pages_give_fifty_records full_net "k" initial_state
           full_page_items full_page_records).
  intros p Hp.
  assert (p = 1 ∨ p = 2 ∨ p = 3 ∨ p = 4 ∨ p = 5) as Hcases by lia.
  destruct Hcases as [-> | [-> | [-> | [-> | ->]]]];
    (split; [eexists _, _; repeat split; reflexivity|]);
    (split; [apply mapM_outcome_Ret; reflexivity | reflexivity]).
Defined.

(** C6. Whatever the five fetches return, [load_games] requests every
    page of 1..5 exactly once and in order (no retry, no early exit); the
    list it builds is made of the records of the pages that returned
    some, in page order, so a failed page only leaves out its own
    contribution; and every page whose fetch failed has its failure
    logged. *)
Theorem failed_pages_are_skipped
    (net : Network) (api_key : string) (s : State)
    (pages : Z → option (list GameDetails)) :
  (∀ p, 1 ≤ p ≤ 5 → page_result net api_key p = Ret (pages p)) →
  ∃ s',
    load_all_pages net api_key s =
      (Ret (default [] (pages 1) ++ default [] (pages 2) ++ default [] (pages 3) ++
            default [] (pages 4) ++ default [] (pages 5)), s') ∧
    sent s' = sent s ++ (page_request api_key <$> [1; 2; 3; 4; 5]) ∧
    (∀ p, 1 ≤ p ≤ 5 → pages p = None → failed_page_record p ∈ log s').
Proof.
  intros Hpages.
  destruct (load_pages_effect net api_key pages [1; 2; 3; 4; 5])
    with (acc := @nil GameDetails) (s := s) as (extra & Hrun & Hlog).
  { intros p Hp. apply Hpages, elem_of_pages, Hp. }
  eexists. split; [|split].
  - unfold load_all_pages. rewrite py_range_1_6, Hrun. simpl.
    rewrite app_nil_r. reflexivity.
  - reflexivity.
  - intros p Hp Hnone. unfold extend, set_log, set_sent. simpl.
    apply elem_of_app. right. apply Hlog; [apply elem_of_pages, Hp|].
    rewrite Hnone. reflexivity.
Qed.

Lemma failed_pages_are_skipped_witness :
  ∃ s',
    load_all_pages sample_net "k" initial_state =
      (Ret (default [] (sample_pages 1) ++ default [] (sample_pages 2) ++
            default [] (sample_pages 3) ++ default [] (sample_pages 4) ++
            default [] (sample_pages 5)), s') ∧
    sent s' = sent initial_state ++ (page_request "k" <$> [1; 2; 3; 4; 5]) ∧
    (∀ p, 1 ≤ p ≤ 5 → sample_pages p = None → failed_page_record p ∈ log s').
Proof.
  apply (failed_pages_are_skipped sample_net "k" initial_state sample_pages).
  intros p Hp.
  assert (p = 1 ∨ p = 2 ∨ p = 3 ∨ p = 4 ∨ p = 5) as Hcases by lia.
  destruct Hcases as [-> | [-> | [-> | [-> | ->]]]]; reflexivity.
Defined.

(** ** The second loop of [load_games] *)

Lemma show_poster_effect (game_details : GameDetails) (s : State) :
  ∃ s',
    show_poster tt game_details s = (Ret tt, s') ∧
    poster_grid_layout s' = poster_grid_layout s ++ poster_tiles game_details ∧
    log s' = log s ++ poster_log game_details ∧
    same_navigation s s'.
Proof.
  unfold poster_tiles, poster_log, show_poster.
  destruct (truthy (background_image game_details)) eqn:Ht.
  - unfold try_except, lift, add_poster, modify. rewrite !bind_run.
    destruct (new_AsyncImage (background_image game_details) 300) as [w|e] eqn:Hw.
    + eexists. split; [reflexivity|]. simpl. rewrite app_nil_r.
      repeat split; reflexivity.
    + assert (isinstance e Exception = true) as He.
      { unfold new_AsyncImage in Hw.
        destruct (background_image game_details); try discriminate;
          injection Hw as <-; reflexivity. }
      cbn [List.find fst snd]. rewrite He.
      eexists. split; [reflexivity|]. simpl. rewrite app_nil_r.
      repeat split; reflexivity.
  - eexists. split; [reflexivity|]. simpl. rewrite app_nil_r.
    repeat split; reflexivity.
Qed.

Lemma same_navigation_refl s : same_navigation s s.
Proof. repeat split. Qed.

Lemma same_navigation_trans s1 s2 s3 :
  same_navigation s1 s2 → same_navigation s2 s3 → same_navigation s1 s3.
Proof.
  unfold same_navigation. intros (?&?&?&?&?&?) (?&?&?&?&?&?).
  repeat split; congruence.
Qed.

Lemma show_posters_effect (catalog : list GameDetails) (s : State) :
  ∃ s',
    for_loop show_poster tt catalog s = (Ret tt, s') ∧
    poster_grid_layout s' = poster_grid_layout s ++ (catalog ≫= poster_tiles) ∧
    log s' = log s ++ (catalog ≫= poster_log) ∧
    same_navigation s s'.
Proof.
  revert s. induction catalog as [|g catalog IH]; intros s.
  - exists s. simpl. rewrite !app_nil_r.
    split; [reflexivity|]. repeat split; reflexivity.
  - destruct (show_poster_effect g s) as (s1 & Hstep & Hgrid1 & Hlog1 & Hnav1).
    destruct (IH s1) as (s2 & Hrest & Hgrid2 & Hlog2 & Hnav2).
    exists s2. split; [|split; [|split]].
    + simpl. rewrite bind_run, Hstep. exact Hrest.
    + rewrite Hgrid2, Hgrid1, <- app_assoc. reflexivity.
    + rewrite Hlog2, Hlog1, <- app_assoc. reflexivity.
    + exact (same_navigation_trans _ _ _ Hnav1 Hnav2).
Qed.

(** ** Cleanup in [load_games] *)

Lemma load_games_guarded_run (block : M unit) (s : State) :
  load_games_guarded block s =
  match block s with
  | (Ret _, s1) => (Ret tt, set_loading_popup_open false s1)
  | (Raise e, s1) =>
      if isinstance e Exception
      then (Ret tt, after_general_error e s1)
      else (Raise e, set_loading_popup_open false s1)
  end.
Proof.
  unfold load_games_guarded, try_finally, try_except.
  destruct (block s) as [[[]|e] s1]; [reflexivity|].
  cbn [List.find fst snd]. destruct (isinstance e Exception); reflexivity.
Qed.

(** C7. After [load_games] the loading popup is dismissed, whatever
    happened.  This holds of the [try]/[except]/[finally] statement of
    [load_games] around any block: if the block raises an [Exception]
    anywhere, the statement returns normally with the error shown in the
    status label and logged, and the popup dismissed; an exception that
    is not an [Exception] propagates, the popup being dismissed as
    well. *)
Theorem load_games_always_dismisses_popup
    (net : Network) (api_key : string) (dt : Z) (block : M unit) (s : State) :
  loading_popup_open (load_games net api_key dt s).2 = false ∧
  loading_popup_open (load_games_guarded block s).2 = false ∧
  (∀ e s1, block s = (Raise e, s1) → isinstance e Exception = true →
     load_games_guarded block s = (Ret tt, after_general_error e s1) ∧
     error_label (after_general_error e s1) = general_error_text e ∧
     mk_LogRecord ERROR (general_error_text e) ∈ log (after_general_error e s1)) ∧
  (∀ e s1, block s = (Raise e, s1) → isinstance e Exception = false →
     (load_games_guarded block s).1 = Raise e).
Proof.
  assert (∀ b : M unit, loading_popup_open (load_games_guarded b s).2 = false) as Hpopup.
  { intros b. rewrite load_games_guarded_run.
    destruct (b s) as [[[]|e] s1]; [reflexivity|].
    destruct (isinstance e Exception); reflexivity. }
  split; [apply Hpopup|]. split; [apply Hpopup|]. split.
  - intros e s1 Hb He. rewrite load_games_guarded_run, Hb, He.
    split; [reflexivity|]. split; [reflexivity|].
    simpl. apply elem_of_app. right. apply list_elem_of_singleton. reflexivity.
  - intros e s1 Hb He. rewrite load_games_guarded_run, Hb, He. reflexivity.
Qed.

Lemma load_games_always_dismisses_popup_witness :
  let s := set_loading_popup_open true initial_state in
  let e := mk_exn ValueError "unexpected" in
  loading_popup_open (load_games sample_net "k" 1 s).2 = false ∧
  load_games_guarded failing_block s =
    (Ret tt, after_general_error e (set_log (λ l, l ++ [mk_LogRecord WARNING [FStr "about to fail"]]) s)) ∧
  error_label (load_games_guarded failing_block s).2 = general_error_text e.
Proof.
  intros s e.
  destruct (load_games_always_dismisses_popup sample_net "k" 1 failing_block s)
    as (H1 & _ & H3 & _).
  split; [exact H1|].
  destruct (H3 e (set_log (λ l, l ++ [mk_LogRecord WARNING [FStr "about to fail"]]) s))
    as (H4 & _ & _); [reflexivity | reflexivity |].
  split; [exact H4 | reflexivity].
Defined.

(** ** What [load_games] leaves alone *)

Lemma page_result_raise net api_key page_number e :
  page_result net api_key page_number = Raise e → isinstance e Exception = false.
Proof.
  unfold page_result. rewrite fetch_popular_games_run.
  destruct (page_records net api_key page_number) as [l|e']; [discriminate|].
  destruct (isinstance e' RequestException); [discriminate|].
  destruct (isinstance e' Exception) eqn:He; [discriminate|].
  simpl. intros [= <-]. exact He.
Qed.

Lemma load_pages_frame net api_key ps :
  ∀ acc s, ∃ r extra reqs,
    for_loop (load_page net api_key) acc ps s = (r, extend extra reqs s) ∧
    (∀ e, r = Raise e → isinstance e Exception = false).
Proof.
  induction ps as [|p ps IH]; intros acc s.
  - exists (Ret acc), [], []. rewrite extend_nil. split; [reflexivity | discriminate].
  - simpl. rewrite bind_run, load_page_run.
    destruct (fetch_popular_games_effect net api_key p s) as [e1 ->].
    destruct (page_result net api_key p) as [r|e] eqn:Hr.
    + destruct (page_truthy r).
      * destruct (IH (acc ++ default [] r) (extend e1 [page_request api_key p] s))
          as (r' & e2 & reqs & -> & Hraise).
        exists r', (e1 ++ e2), ([page_request api_key p] ++ reqs).
        rewrite extend_extend. split; [reflexivity | exact Hraise].
      * rewrite record_error_extend.
        destruct (IH acc (extend (e1 ++ [failed_page_record p])
                            [page_request api_key p] s))
          as (r' & e2 & reqs & Hrest & Hraise).
        unfold failed_page_record in Hrest. rewrite Hrest.
        exists r', ((e1 ++ [failed_page_record p]) ++ e2), ([page_request api_key p] ++ reqs).
        rewrite extend_extend. split; [reflexivity | exact Hraise].
    + exists (Raise e), e1, [page_request api_key p].
      split; [reflexivity|]. intros e' [= <-]. exact (page_result_raise _ _ _ _ Hr).
Qed.

Lemma bind_on_release_ignored (w : AsyncImage) (cb : Callback) :
  bind_on_release w cb = w.
Proof. reflexivity. Qed.

Lemma poster_tiles_handlers (g : GameDetails) :
  Forall (λ t, on_release t = []) (poster_tiles g).
Proof.
  unfold poster_tiles, show_poster.
  destruct (truthy (background_image g)); [|constructor].
  destruct (background_image g); repeat constructor.
Qed.

Lemma load_games_try_frame net api_key s :
  ∃ r s',
    load_games_try net api_key s = (r, s') ∧
    grid_extended s s' ∧
    (∀ e, r = Raise e → isinstance e Exception = false).
Proof.
  unfold load_games_try, load_all_pages. rewrite bind_run.
  destruct (load_pages_frame net api_key (py_range 1 6) [] s)
    as (r & extra & reqs & -> & Hraise).
  destruct r as [catalog|e].
  - destruct (show_posters_effect catalog (extend extra reqs s))
      as (s' & -> & Hgrid & _ & (_ & _ & Hscr & Hcur & Hdet & Hclk)).
    exists (Ret tt), s'. split; [reflexivity|]. split; [|discriminate].
    unfold grid_extended. rewrite Hscr, Hcur, Hdet, Hclk.
    repeat (split; [reflexivity|]).
    exists (catalog ≫= poster_tiles). split; [exact Hgrid|].
    apply Forall_bind, Forall_forall. intros g _. apply poster_tiles_handlers.
  - exists (Raise e), (extend extra reqs s). split; [reflexivity|].
    split; [|intros e' [= <-]; apply Hraise; reflexivity].
    repeat (split; [reflexivity|]).
    exists []. rewrite app_nil_r. split; [reflexivity | constructor].
Qed.

(** The [except] clause of [load_games] is never entered: the block of
    [load_games] raises no [Exception], since [fetch_popular_games] and
    the poster loop catch them all. *)
Lemma load_games_try_raises net api_key s e s' :
  load_games_try net api_key s = (Raise e, s') → isinstance e Exception = false.
Proof.
  intros H. destruct (load_games_try_frame net api_key s) as (r & s1 & Hrun & _ & Hraise).
  rewrite H in Hrun. injection Hrun as <- <-. apply Hraise. reflexivity.
Qed.

Lemma load_games_frame net api_key dt s :
  grid_extended s (load_games net api_key dt s).2.
Proof.
  unfold load_games. rewrite load_games_guarded_run.
  destruct (load_games_try_frame net api_key s) as (r & s1 & -> & Hext & _).
  destruct r as [[]|e]; [exact Hext|].
  destruct (isinstance e Exception); exact Hext.
Qed.

(** ** Posters *)

(** C8. When the first loop of [load_games] has built the list
    [catalog], [load_games] adds to the grid the tiles of the records of
    the list, in order, and to the log their entries; a record whose
    image URL is the empty string gives no tile and one warning that
    names the game; a record whose image URL is a non-empty string gives
    exactly one tile, showing that URL, and no log entry. *)
Theorem posters_follow_image_urls
    (net : Network) (api_key : string) (dt : Z) (s s1 : State)
    (catalog : list GameDetails) :
  load_all_pages net api_key s = (Ret catalog, s1) →
  (∃ s',
     load_games net api_key dt s = (Ret tt, s') ∧
     poster_grid_layout s' = poster_grid_layout s ++ (catalog ≫= poster_tiles) ∧
     log s' = log s1 ++ (catalog ≫= poster_log)) ∧
  (∀ g, background_image g = PStr EmptyString →
     poster_tiles g = [] ∧ poster_log g = [no_image_record g]) ∧
  (∀ g u, background_image g = PStr u → u ≠ EmptyString →
     poster_tiles g = [mk_AsyncImage u 300 []] ∧
     poster_log g = []).
Proof.
  intros Hall. split; [|split].
  - destruct (show_posters_effect catalog s1) as (s2 & Hloop & Hgrid & Hlog & _).
    assert (poster_grid_layout s1 = poster_grid_layout s) as Hsame.
    { unfold load_all_pages in Hall.
      destruct (load_pages_frame net api_key (py_range 1 6) [] s)
        as (r & extra & reqs & Hrun & _).
      rewrite Hrun in Hall. injection Hall as _ <-. reflexivity. }
    exists (set_loading_popup_open false s2). split; [|split].
    + unfold load_games. rewrite load_games_guarded_run.
      unfold load_games_try. rewrite bind_run, Hall, Hloop. reflexivity.
    + simpl. rewrite Hgrid, Hsame. reflexivity.
    + simpl. exact Hlog.
  - intros g Hg. unfold poster_tiles, poster_log, show_poster. rewrite Hg.
    split; reflexivity.
  - intros g u Hg Hu. unfold poster_tiles, poster_log, show_poster. rewrite Hg.
    destruct u as [|c u]; [congruence|]. split; reflexivity.
Qed.

Lemma posters_follow_image_urls_witness :
  let s1 := (load_all_pages sample_net "k" initial_state).2 in
  load_all_pages sample_net "k" initial_state = (Ret sample_catalog, s1) ∧
  ∃ s',
    load_games sample_net "k" 1 initial_state = (Ret tt, s') ∧
    poster_grid_layout s' =
      poster_grid_layout initial_state ++ (sample_catalog ≫= poster_tiles) ∧
    log s' = log s1 ++ (sample_catalog ≫= poster_log).
Proof.
  intros s1.
  assert (load_all_pages sample_net "k" initial_state = (Ret sample_catalog, s1)) as Hall
    by (vm_compute; reflexivity).
  split; [exact Hall|].
  exact (proj1 (posters_follow_image_urls sample_net "k" 1 initial_state s1
                  sample_catalog Hall)).
Defined.

Example sample_catalog_posters :
  sample_catalog ≫= poster_tiles =
    [mk_AsyncImage "https://media.rawg.io/portal.jpg" 300 []] ∧
  sample_catalog ≫= poster_log =
    [mk_LogRecord WARNING [FStr "No image available for the game: "; FVal (PStr "Doom")]].
Proof. split; reflexivity. Qed.

(** ** Startup without an API key *)

Lemma build_without_key (api_key : string) :
  truthy (PStr api_key) = false →
  ∃ s, build api_key initial_state = (Ret RootLayout, s) ∧ startup_failed s.
Proof.
  intros Hkey. unfold build. rewrite !bind_run. simpl in *. rewrite Hkey.
  eexists. split; [reflexivity|]. repeat split.
Qed.

Lemma dispatch_startup_failed net api_key (ev : Event) (s : State) :
  startup_failed s →
  ∃ s', dispatch net api_key ev s = (Ret tt, s') ∧ startup_failed s'.
Proof.
  intros (Hlbl & Hpop & Hsent & Hclk & Hgrid & Hdet & Hscr & Hcur).
  destruct ev as [|i| |]; unfold dispatch.
  - rewrite Hclk. eexists. split; [reflexivity|]. repeat split; assumption.
  - rewrite Hgrid. exists s. split; [reflexivity|]. repeat split; assumption.
  - rewrite Hdet. exists s. split; [reflexivity|]. repeat split; assumption.
  - rewrite Hpop. exists s. split; [reflexivity|]. repeat split; assumption.
Qed.

Lemma events_startup_failed net api_key (events : list Event) :
  ∀ s, startup_failed s →
  ∃ s', for_loop (λ _ ev, dispatch net api_key ev) tt events s = (Ret tt, s') ∧
        startup_failed s'.
Proof.
  induction events as [|ev events IH]; intros s Hs.
  - exists s. split; [reflexivity | exact Hs].
  - destruct (dispatch_startup_failed net api_key ev s Hs) as (s1 & Hstep & Hs1).
    destruct (IH s1 Hs1) as (s2 & Hrest & Hs2).
    exists s2. split; [|exact Hs2]. simpl. rewrite bind_run, Hstep. exact Hrest.
Qed.

(** C5. If the API key in effect is empty, [build] shows the fixed
    error message, dismisses the loading popup, schedules nothing and
    returns the bare layout; whatever events follow, the application
    stays in that state and no HTTP request is ever sent. *)
Theorem missing_api_key_fails_startup
    (net : Network) (api_key : string) (events : list Event) :
  truthy (PStr api_key) = false →
  (build api_key initial_state).1 = Ret RootLayout ∧
  startup_failed (build api_key initial_state).2 ∧
  ∃ s,
    run net api_key events initial_state = (Ret tt, s) ∧
    error_label s = api_key_error ∧
    loading_popup_open s = false ∧
    sent s = [] ∧
    startup_failed s.
Proof.
  intros Hkey. destruct (build_without_key api_key Hkey) as (s0 & Hbuild & Hs0).
  rewrite Hbuild. split; [reflexivity|]. split; [exact Hs0|].
  destruct (events_startup_failed net api_key events s0 Hs0) as (s & Hrun & Hs).
  exists s. unfold run. rewrite bind_run, Hbuild.
  split; [exact Hrun|].
  pose proof Hs as (Hlbl & Hpop & Hsent & _).
  split; [exact Hlbl|]. split; [exact Hpop|]. split; [exact Hsent | exact Hs].
Qed.

Lemma missing_api_key_fails_startup_witness :
  let api_key := api_key_of {[ "GAME_API_KEY" := EmptyString ]} ∅ in
  truthy (PStr api_key) = false ∧
  ∃ s,
    run sample_net api_key [ClockTick; Tap 0; PressBack] initial_state = (Ret tt, s) ∧
    error_label s = api_key_error ∧
    loading_popup_open s = false ∧
    sent s = [] ∧
    startup_failed s.
Proof.
  intros api_key.
  assert (truthy (PStr api_key) = false) as Hkey by reflexivity.
  split; [exact Hkey|].
  exact (proj2 (proj2 (missing_api_key_fails_startup sample_net api_key
                         [ClockTick; Tap 0; PressBack] Hkey))).
Defined.

(** The key in effect is empty only if [GAME_API_KEY] is set to the
    empty string, in the environment or in [.env]; when it is not set at
    all the placeholder of the source is the key, and it is not empty. *)
Lemma api_key_empty_iff (environ dotenv : gmap string string) :
  truthy (PStr (api_key_of environ dotenv)) = false ↔
  load_dotenv environ dotenv !! "GAME_API_KEY" = Some EmptyString.
Proof.
  unfold api_key_of, os_getenv.
  destruct (load_dotenv environ dotenv !! "GAME_API_KEY") as [k|]; simpl.
  - destruct k; simpl; split; congruence.
  - split; discriminate.
Qed.

Lemma api_key_unset (environ dotenv : gmap string string) :
  environ !! "GAME_API_KEY" = None →
  dotenv !! "GAME_API_KEY" = None →
  api_key_of environ dotenv = "your_api_key_here".
Proof.
  intros He Hd. unfold api_key_of, os_getenv, load_dotenv.
  rewrite (proj2 (lookup_union_None environ dotenv "GAME_API_KEY") (conj He Hd)).
  reflexivity.
Qed.

(** ** Navigation *)

Lemma build_with_key (api_key : string) :
  truthy (PStr api_key) = true →
  ∃ s, build api_key initial_state = (Ret RootScreenManager, s) ∧
       main_screen_shown s.
Proof.
  intros Hkey. unfold build. rewrite !bind_run. simpl in *. rewrite Hkey.
  eexists. split; [reflexivity|].
  unfold main_screen_shown. simpl.
  split; [reflexivity|]. split; [reflexivity|]. split; [reflexivity|].
  split; repeat constructor.
Qed.

(** The callbacks do what they are meant to when they are called. *)
Lemma show_game_details_when_called (s : State) :
  "Detail Screen" ∈ screens s →
  ∃ s', show_game_details s = (Ret tt, s') ∧
        current s' = Some "Detail Screen" ∧
        detail_screen s' = detail_widgets.
Proof.
  intros Hscr. unfold show_game_details, modify, screen_manager_set_current.
  rewrite !bind_run. simpl.
  case_bool_decide as Hnow.
  - eexists. split; [reflexivity|]. split; [exact Hnow | reflexivity].
  - rewrite bool_decide_eq_true_2 by exact Hscr.
    eexists. split; [reflexivity|]. split; reflexivity.
Qed.

Lemma go_back_when_called (s : State) :
  "Main Screen" ∈ screens s →
  ∃ s', go_back s = (Ret tt, s') ∧ current s' = Some "Main Screen".
Proof.
  intros Hscr. unfold go_back, screen_manager_set_current.
  case_bool_decide as Hnow.
  - exists s. split; [reflexivity | exact Hnow].
  - rewrite bool_decide_eq_true_2 by exact Hscr.
    eexists. split; reflexivity.
Qed.

Lemma load_games_main_screen_shown net api_key dt (s : State) :
  main_screen_shown s → main_screen_shown (load_games net api_key dt s).2.
Proof.
  intros (Hscr & Hcur & Hdet & Hgrid & Hclk).
  destruct (load_games_frame net api_key dt s)
    as (Hscr' & Hcur' & Hdet' & Hclk' & tiles & Hgrid' & Htiles).
  unfold main_screen_shown. rewrite Hscr', Hcur', Hdet', Hclk', Hgrid'.
  repeat split; auto. apply Forall_app. split; assumption.
Qed.

Lemma call_all_load_games net api_key (cbs : list Callback) :
  Forall (λ cb, cb = load_games_cb) cbs →
  ∀ s s', main_screen_shown s →
          call_all net api_key cbs s = (Ret tt, s') → main_screen_shown s'.
Proof.
  unfold call_all. induction 1 as [|cb cbs -> _ IH]; intros s s' Hs Hrun; simpl in Hrun.
  - injection Hrun as <-. exact Hs.
  - rewrite bind_run in Hrun.
    pose proof (load_games_main_screen_shown net api_key 1 s Hs) as Hs1.
    destruct (load_games net api_key 1 s) as [[[]|e] s1]; [|discriminate].
    exact (IH s1 s' Hs1 Hrun).
Qed.

(** A touch on a tile runs nothing. *)
Lemma tap_changes_nothing net api_key (s : State) (i : nat) (tile : AsyncImage) :
  main_screen_shown s →
  poster_grid_layout s !! i = Some tile →
  on_release tile = [] ∧ dispatch net api_key (Tap i) s = (Ret tt, s).
Proof.
  intros (_ & _ & _ & Hgrid & _) Hi.
  assert (on_release tile = []) as Htile.
  { rewrite Forall_forall in Hgrid. apply Hgrid. apply list_elem_of_lookup. eauto. }
  split; [exact Htile|]. unfold dispatch. rewrite Hi, Htile. reflexivity.
Qed.

Lemma dispatch_main_screen_shown net api_key (ev : Event) (s s' : State) :
  main_screen_shown s → dispatch net api_key ev s = (Ret tt, s') →
  main_screen_shown s'.
Proof.
  intros Hs Hrun. destruct ev as [|i| |].
  - unfold dispatch in Hrun.
    pose proof Hs as (Hscr & Hcur & Hdet & Hgrid & Hclk).
    eapply call_all_load_games; [|  |exact Hrun].
    + apply Forall_fmap. exact Hclk.
    + unfold main_screen_shown. simpl. repeat split; auto.
  - destruct (poster_grid_layout s !! i) as [tile|] eqn:Hi.
    + destruct (tap_changes_nothing net api_key s i tile Hs Hi) as [_ Htap].
      rewrite Htap in Hrun. injection Hrun as <-. exact Hs.
    + unfold dispatch in Hrun. rewrite Hi in Hrun. injection Hrun as <-. exact Hs.
  - unfold dispatch in Hrun. pose proof Hs as (_ & _ & Hdet & _).
    rewrite Hdet in Hrun. injection Hrun as <-. exact Hs.
  - unfold dispatch in Hrun.
    destruct (loading_popup_open s); injection Hrun as <-; [|exact Hs].
    destruct Hs as (Hscr & Hcur & Hdet & Hgrid & Hclk).
    unfold main_screen_shown. simpl. repeat split; auto.
Qed.

(** Every state a run reaches is one of an application that started
    with a key, or one that started without. *)
Lemma run_reaches net api_key (events : list Event) (s : State) :
  run net api_key events initial_state = (Ret tt, s) →
  main_screen_shown s ∨ startup_failed s.
Proof.
  unfold run. rewrite bind_run. intros Hrun.
  destruct (truthy (PStr api_key)) eqn:Hkey.
  - left. destruct (build_with_key api_key Hkey) as (s0 & Hbuild & Hs0).
    rewrite Hbuild in Hrun. clear Hbuild. revert s0 Hs0 Hrun.
    induction events as [|ev events IH]; intros s0 Hs0 Hrun; simpl in Hrun.
    + injection Hrun as <-. exact Hs0.
    + rewrite bind_run in Hrun.
      destruct (dispatch net api_key ev s0) as [[[]|e] s1] eqn:Hstep; [|discriminate].
      exact (IH s1 (dispatch_main_screen_shown _ _ _ _ _ Hs0 Hstep) Hrun).
  - right. destruct (build_without_key api_key Hkey) as (s0 & Hbuild & Hs0).
    rewrite Hbuild in Hrun.
    destruct (events_startup_failed net api_key events s0 Hs0) as (s1 & Hrun' & Hs1).
    congruence.
Qed.

(** C9 fails on the code.  [load_games] asks Kivy to bind
    [show_game_details] to [on_release] of every tile, but an
    [AsyncImage] has no such event and the binding is dropped.  So in
    every state the application reaches, whatever the events before: no
    tile has a callback, a touch on a tile leaves the state as it is, and
    the detail screen is not the current one. *)
Theorem tile_touch_never_opens_details
    (net : Network) (api_key : string) (events : list Event) (s : State) :
  run net api_key events initial_state = (Ret tt, s) →
  (∀ i tile, poster_grid_layout s !! i = Some tile →
     on_release tile = [] ∧
     dispatch net api_key (Tap i) s = (Ret tt, s)) ∧
  current s ≠ Some "Detail Screen".
Proof.
  intros Hrun. destruct (run_reaches _ _ _ _ Hrun) as [Hs | Hfailed].
  - split.
    + intros i tile Hi. exact (tap_changes_nothing net api_key s i tile Hs Hi).
    + destruct Hs as (_ & Hcur & _). rewrite Hcur. discriminate.
  - destruct Hfailed as (_ & _ & _ & _ & Hgrid & _ & _ & Hcur). split.
    + intros i tile Hi. rewrite Hgrid in Hi. discriminate.
    + rewrite Hcur. discriminate.
Qed.

Lemma tile_touch_never_opens_details_witness :
  let events := [ClockTick; Tap 0] in
  let s := (run sample_net "k" events initial_state).2 in
  run sample_net "k" events initial_state = (Ret tt, s) ∧
  poster_grid_layout s =
    [mk_AsyncImage "https://media.rawg.io/portal.jpg" 300 []] ∧
  current s = Some "Main Screen" ∧
  dispatch sample_net "k" (Tap 0) s = (Ret tt, s) ∧
  current s ≠ Some "Detail Screen".
Proof.
  intros events s.
  assert (run sample_net "k" events initial_state = (Ret tt, s)) as Hrun
    by (vm_compute; reflexivity).
  assert (poster_grid_layout s =
          [mk_AsyncImage "https://media.rawg.io/portal.jpg" 300 []]) as Hgrid
    by (vm_compute; reflexivity).
  destruct (tile_touch_never_opens_details sample_net "k" events s Hrun)
    as [Htap Hcur].
  split; [exact Hrun|]. split; [exact Hgrid|].
  split; [vm_compute; reflexivity|].
  split; [|exact Hcur].
  refine (proj2 (Htap 0%nat _ _)). rewrite Hgrid. reflexivity.
Defined.

(** * Further properties *)

(** ** One call of [fetch_popular_games] *)

(** X1. Whatever the reply, one call of [fetch_popular_games] sends
    exactly one request: to the base URL, with the API key, the page
    asked for and a page size of 10; and it changes nothing of the
    application but the log. *)
Theorem fetch_sends_one_request
    (net : Network) (api_key : string) (page_number : Z) (s : State) :
  sent (fetch_popular_games net api_key page_number s).2 =
    sent s ++ [mk_Request game_api_base_url (mk_Params api_key page_number 10)] ∧
  ui_unchanged s (fetch_popular_games net api_key page_number s).2.
Proof.
  destruct (fetch_popular_games_effect net api_key page_number s) as [extra ->].
  split; [reflexivity|]. repeat split.
Qed.

(** X2. [fetch_popular_games] raises no [Exception]; it returns [None]
    exactly when it has written one error to the log, and a list exactly
    when it has written nothing. *)
Theorem fetch_logs_exactly_when_None
    (net : Network) (api_key : string) (page_number : Z) (s : State) :
  match fetch_popular_games net api_key page_number s with
  | (Ret (Some _), s') => log s' = log s
  | (Ret None, s') => ∃ msg, log s' = log s ++ [mk_LogRecord ERROR msg]
  | (Raise e, s') => isinstance e Exception = false ∧ log s' = log s
  end.
Proof.
  rewrite fetch_popular_games_run.
  destruct (page_records net api_key page_number) as [l|e]; [reflexivity|].
  destruct (isinstance e RequestException); [eexists; reflexivity|].
  destruct (isinstance e Exception) eqn:He; [eexists; reflexivity|].
  split; [exact He | reflexivity].
Qed.

(** X3. A page is decoded all or nothing: for a reply with a [results]
    array, [fetch_popular_games] returns a list if and only if every item
    is an object with [name], and the list then has one record per
    item. *)
Theorem fetch_all_or_nothing
    (net : Network) (api_key : string) (page_number : Z) (s : State)
    (items : list pyval) :
  page_reply net api_key page_number items →
  ((∃ records, (fetch_popular_games net api_key page_number s).1 = Ret (Some records))
   ↔ Forall has_name items) ∧
  (∀ records,
     (fetch_popular_games net api_key page_number s).1 = Ret (Some records) →
     length records = length items).
Proof.
  intros Hreply.
  rewrite fetch_popular_games_run, (page_records_reply _ _ _ _ Hreply).
  destruct (mapM decode_game items) as [records|e] eqn:Hmap.
  - apply mapM_outcome_Ret in Hmap. split; [split|].
    + intros _. clear Hreply. induction Hmap as [|item r items records Hdec _ IH].
      * constructor.
      * constructor; [|exact IH].
        destruct (decode_game_Ret _ _ Hdec) as (g & -> & Hn & _).
        exists g. split; [reflexivity | eauto].
    + intros _. exists records. reflexivity.
    + intros records' [= <-]. symmetry. exact (Forall2_length _ _ _ Hmap).
  - assert (¬ Forall has_name items) as Hnot.
    { intros Hall.
      assert (∃ records, Forall2 (λ item r, decode_game item = Ret r) items records)
        as [records Hrec].
      { clear -Hall. induction Hall as [|item items (g & -> & n & Hn) _ [records IH]].
        - exists []. constructor.
        - eexists (_ :: records). constructor; [|exact IH].
          apply (decode_game_dict g n Hn). }
      apply mapM_outcome_Ret in Hrec. congruence. }
    destruct (isinstance e RequestException); [|destruct (isinstance e Exception)];
      simpl;
      (split; [split; [intros [records H]; discriminate H
                      | intros Hall; destruct (Hnot Hall)]
              | intros records H; discriminate H]).
Qed.

Lemma fetch_all_or_nothing_witness :
  ((∃ records, (fetch_popular_games sample_net "k" 1 initial_state).1 = Ret (Some records))
   ↔ Forall has_name [portal_item; nameless_item]) ∧
  (∀ records,
     (fetch_popular_games sample_net "k" 1 initial_state).1 = Ret (Some records) →
     length records = 2%nat).
Proof.
  apply (fetch_all_or_nothing sample_net "k" 1 initial_state [portal_item; nameless_item]).
  eexists _, _. repeat split; reflexivity.
Defined.

(** X4. Every field an item has goes into its record as it is: the
    sentinels stand in for absent keys only, so a JSON [null] stays
    [None]. *)
Theorem fetch_copies_present_fields
    (net : Network) (api_key : string) (page_number : Z) (s : State)
    (items : list pyval) (records : list GameDetails) :
  page_reply net api_key page_number items →
  (fetch_popular_games net api_key page_number s).1 = Ret (Some records) →
  Forall2 (λ item r, ∃ g, item = PDict g ∧ copies g r) items records.
Proof.
  intros Hreply.
  rewrite fetch_popular_games_run, (page_records_reply _ _ _ _ Hreply).
  destruct (mapM decode_game items) as [records'|e] eqn:Hmap.
  - intros [= <-]. apply mapM_outcome_Ret in Hmap.
    eapply Forall2_impl; [exact Hmap|].
    intros item r Hdec. cbv beta in Hdec.
    destruct (decode_game_Ret _ _ Hdec) as (g & -> & Hn & _).
    exists g. split; [reflexivity|].
    rewrite (decode_game_dict g _ Hn) in Hdec. injection Hdec as <-.
    unfold copies. simpl. split; [exact Hn|].
    repeat split; intros v ->; reflexivity.
  - destruct (isinstance e RequestException); [discriminate|].
    destruct (isinstance e Exception); discriminate.
Qed.

Lemma fetch_copies_present_fields_witness :
  (fetch_popular_games odd_net "k" 1 initial_state).1 =
    Ret (Some [mk_GameDetails (PStr "Portal") (PStr "No description available")
                 (PStr "Unknown release date") (PStr "https://media.rawg.io/portal.jpg");
               mk_GameDetails (PStr "Celeste") PNone
                 (PStr "Unknown release date") PNone]) ∧
  Forall2 (λ item r, ∃ g, item = PDict g ∧ copies g r) [portal_item; celeste_item]
    [mk_GameDetails (PStr "Portal") (PStr "No description available")
       (PStr "Unknown release date") (PStr "https://media.rawg.io/portal.jpg");
     mk_GameDetails (PStr "Celeste") PNone (PStr "Unknown release date") PNone].
Proof.
  assert ((fetch_popular_games odd_net "k" 1 initial_state).1 =
    Ret (Some [mk_GameDetails (PStr "Portal") (PStr "No description available")
                 (PStr "Unknown release date") (PStr "https://media.rawg.io/portal.jpg");
               mk_GameDetails (PStr "Celeste") PNone
                 (PStr "Unknown release date") PNone])) as Hfetch
    by (vm_compute; reflexivity).
  split; [exact Hfetch|].
  apply (fetch_copies_present_fields odd_net "k" 1 initial_state _ _); [|exact Hfetch].
  eexists _, _. repeat split; reflexivity.
Defined.

(** X5. When the body of an accepted response is not JSON, so that
    [response.json()] raises the [Exception] [e], [fetch_popular_games]
    returns [None]; the error is logged as a request error if [e] is a
    [RequestException] and as an unexpected error otherwise. *)
Theorem fetch_malformed_json_returns_None
    (net : Network) (api_key : string) (page_number : Z) (s : State)
    (response : Response) (e : exn) :
  net (page_request api_key page_number) = Ret response →
  raise_for_status response = Ret tt →
  json response = Raise e →
  isinstance e Exception = true →
  fetch_popular_games net api_key page_number s =
  (Ret None,
   record_error
     [FStr (if isinstance e RequestException
            then "Request error occurred: " else "Unexpected error: ");
      FExn e]
     (record_sent api_key page_number s)).
Proof.
  intros Hnet Hst Hjs He. rewrite fetch_popular_games_run.
  replace (page_records net api_key page_number) with (@Raise (list GameDetails) e).
  - destruct (isinstance e RequestException); [reflexivity|].
    rewrite He. reflexivity.
  - unfold page_records. rewrite Hnet. simpl. rewrite Hst. simpl.
    rewrite Hjs. reflexivity.
Qed.

Lemma fetch_malformed_json_returns_None_witness :
  fetch_popular_games odd_net "k" 3 initial_state =
  (Ret None,
   record_error
     [FStr "Request error occurred: "; FExn (mk_exn InvalidJSONError "Expecting value")]
     (record_sent "k" 3 initial_state)).
Proof.
  exact (fetch_malformed_json_returns_None odd_net "k" 3 initial_state
           (mk_Response 200 "OK" game_api_base_url
              (Raise (mk_exn InvalidJSONError "Expecting value")))
           (mk_exn InvalidJSONError "Expecting value")
           eq_refl eq_refl eq_refl eq_refl).
Defined.

(** X6. The default of [get('results', [])] covers a missing key only.
    When the body of an accepted response is not a JSON object, or its
    [results] is [null], a boolean or a number, [fetch_popular_games]
    returns [None] and logs an unexpected [AttributeError] or
    [TypeError]. *)
Theorem fetch_unexpected_shape_returns_None
    (net : Network) (api_key : string) (page_number : Z) (s : State)
    (response : Response) (body : pyval) :
  net (page_request api_key page_number) = Ret response →
  raise_for_status response = Ret tt →
  json response = Ret body →
  unexpected_shape body →
  ∃ e,
    (exn_class_of e = AttributeError ∨ exn_class_of e = TypeError) ∧
    fetch_popular_games net api_key page_number s =
    (Ret None,
     record_error [FStr "Unexpected error: "; FExn e]
       (record_sent api_key page_number s)).
Proof.
  intros Hnet Hst Hjs Hshape. rewrite fetch_popular_games_run.
  assert (∃ e, (exn_class_of e = AttributeError ∨ exn_class_of e = TypeError) ∧
               page_records net api_key page_number = Raise e) as (e & Hcls & ->).
  { unfold page_records. rewrite Hnet. simpl. rewrite Hst. simpl. rewrite Hjs. simpl.
    destruct body as [| | | | |l|d];
      try (eexists; split; [|reflexivity]; left; reflexivity).
    simpl in Hshape. simpl.
    destruct (d !! "results") as [[| | | | | |]|]; try destruct Hshape;
      simpl; eexists; (split; [|reflexivity]; right; reflexivity). }
  exists e. split; [exact Hcls|].
  unfold isinstance. destruct Hcls as [-> | ->]; reflexivity.
Qed.

Lemma fetch_unexpected_shape_returns_None_witness :
  ∃ e,
    (exn_class_of e = AttributeError ∨ exn_class_of e = TypeError) ∧
    fetch_popular_games odd_net "k" 2 initial_state =
    (Ret None,
     record_error [FStr "Unexpected error: "; FExn e] (record_sent "k" 2 initial_state)).
Proof.
  apply (fetch_unexpected_shape_returns_None odd_net "k" 2 initial_state
           (mk_Response 200 "OK" game_api_base_url
              (Ret (PDict {[ "results" := PNone ]})))
           (PDict {[ "results" := PNone ]})); reflexivity.
Defined.

(** ** The poster loop *)

Lemma poster_tiles_url (g : GameDetails) :
  poster_tiles g =
  match poster_url g with
  | Some u => [mk_AsyncImage u 300 []]
  | None => []
  end.
Proof.
  unfold poster_tiles, poster_url, show_poster.
  destruct (background_image g) as [| [] | z | bits | [|c u] | [|x l] | d]; try reflexivity.
  - simpl. destruct (negb (z =? 0)); reflexivity.
  - simpl. destruct (negb _); reflexivity.
  - simpl. destruct (negb _); reflexivity.
Qed.

Lemma poster_one_entry (g : GameDetails) :
  (length (poster_tiles g) + length (poster_log g) = 1)%nat.
Proof.
  unfold poster_tiles, poster_log, show_poster.
  destruct (background_image g) as [| [] | z | bits | [|c u] | [|x l] | d]; try reflexivity.
  - simpl. destruct (negb (z =? 0)); reflexivity.
  - simpl. destruct (negb _); reflexivity.
  - simpl. destruct (negb _); reflexivity.
Qed.

(** X7. The poster loop accounts for every record exactly once: a
    record gives either one tile (when its image is a non-empty string,
    the tile showing that string at height 300) or one log entry, so
    tiles and log entries together grow by the number of records and
    the tiles are the posters of the list in order. *)
Theorem posters_account_for_every_record (catalog : list GameDetails) (s : State) :
  (for_loop show_poster tt catalog s).1 = Ret tt ∧
  poster_grid_layout (for_loop show_poster tt catalog s).2 =
    poster_grid_layout s ++
    ((λ u, mk_AsyncImage u 300 []) <$> omap poster_url catalog) ∧
  (length (poster_grid_layout (for_loop show_poster tt catalog s).2) +
   length (log (for_loop show_poster tt catalog s).2) =
   length (poster_grid_layout s) + length (log s) + length catalog)%nat.
Proof.
  destruct (show_posters_effect catalog s) as (s' & -> & Hgrid & Hlog & _).
  split; [reflexivity|]. simpl.
  assert (catalog ≫= poster_tiles =
          (λ u, mk_AsyncImage u 300 []) <$> omap poster_url catalog)
    as Htiles.
  { clear. induction catalog as [|g catalog IH]; [reflexivity|].
    rewrite bind_cons, IH, poster_tiles_url. simpl.
    destruct (poster_url g); reflexivity. }
  split; [rewrite Hgrid, Htiles; reflexivity|].
  rewrite Hgrid, Hlog, !length_app.
  assert (length (catalog ≫= poster_tiles) + length (catalog ≫= poster_log)
          = length catalog)%nat as Hcount.
  { clear. induction catalog as [|g catalog IH]; [reflexivity|].
    rewrite !bind_cons, !length_app. simpl.
    pose proof (poster_one_entry g). lia. }
  lia.
Qed.

Lemma show_poster_label (g : GameDetails) (s : State) :
  error_label (show_poster tt g s).2 = error_label s ∨
  error_label (show_poster tt g s).2 = poster_error.
Proof.
  unfold show_poster.
  destruct (truthy (background_image g)); [|left; reflexivity].
  destruct (background_image g); simpl; auto.
Qed.

Lemma show_posters_label (catalog : list GameDetails) :
  ∀ s, error_label s = poster_error →
       error_label (for_loop show_poster tt catalog s).2 = poster_error.
Proof.
  induction catalog as [|g catalog IH]; intros s Hs; [exact Hs|].
  simpl. rewrite bind_run.
  destruct (show_poster_effect g s) as (s1 & Hstep & _).
  pose proof (show_poster_label g s) as Hlbl.
  rewrite Hstep in *. simpl in Hlbl. apply IH.
  destruct Hlbl as [Hl | Hl]; rewrite Hl; [exact Hs | reflexivity].
Qed.

(** X8. A record whose image is truthy but not a string (a number, say)
    gets no tile: the error is caught inside the loop, the status label
    is set to the poster error message, and the records before and after
    it still get their tiles. *)
Theorem poster_error_does_not_stop_loop
    (before after : list GameDetails) (g : GameDetails) (s : State) :
  truthy (background_image g) = true →
  (∀ u, background_image g ≠ PStr u) →
  (for_loop show_poster tt (before ++ g :: after) s).1 = Ret tt ∧
  poster_grid_layout (for_loop show_poster tt (before ++ g :: after) s).2 =
    poster_grid_layout s ++ (before ≫= poster_tiles) ++ (after ≫= poster_tiles) ∧
  error_label (for_loop show_poster tt (before ++ g :: after) s).2 = poster_error.
Proof.
  intros Htruthy Hnot.
  assert (poster_tiles g = []) as Hg.
  { rewrite poster_tiles_url. unfold poster_url.
    destruct (background_image g) as [| | | | u | |]; try reflexivity.
    destruct (Hnot u eq_refl). }
  rewrite for_loop_app.
  destruct (show_posters_effect before s) as (s1 & -> & Hgrid1 & _ & _).
  change (for_loop show_poster tt (g :: after) s1)
    with ((show_poster tt g ≫= λ acc, for_loop show_poster acc after) s1).
  rewrite bind_run.
  destruct (show_poster_effect g s1) as (s2 & Hstep & Hgrid2 & _ & _).
  assert (error_label s2 = poster_error) as Hlbl.
  { replace s2 with (show_poster tt g s1).2 by (rewrite Hstep; reflexivity).
    unfold show_poster. rewrite Htruthy.
    destruct (background_image g) as [| | | | u | |]; try reflexivity.
    destruct (Hnot u eq_refl). }
  rewrite Hstep.
  destruct (show_posters_effect after s2) as (s3 & Hrest & Hgrid3 & _ & _).
  pose proof (show_posters_label after s2 Hlbl) as Hlbl3.
  rewrite Hrest in *. simpl in *.
  split; [reflexivity|]. split; [|exact Hlbl3].
  rewrite Hgrid3, Hgrid2, Hgrid1, Hg, app_nil_r, app_assoc. reflexivity.
Qed.

Lemma poster_error_does_not_stop_loop_witness :
  (for_loop show_poster tt odd_catalog initial_state).1 = Ret tt ∧
  poster_grid_layout (for_loop show_poster tt odd_catalog initial_state).2 =
    [mk_AsyncImage "https://media.rawg.io/portal.jpg" 300 [];
     mk_AsyncImage "https://media.rawg.io/hades.jpg" 300 []] ∧
  error_label (for_loop show_poster tt odd_catalog initial_state).2 = poster_error.
Proof.
  refine (poster_error_does_not_stop_loop
            [mk_GameDetails (PStr "Portal") (PStr "No description available")
               (PStr "Unknown release date") (PStr "https://media.rawg.io/portal.jpg")]
            [mk_GameDetails (PStr "Celeste") PNone (PStr "Unknown release date") PNone;
             mk_GameDetails (PStr "Hades") (PStr "No description available")
               (PStr "Unknown release date") (PStr "https://media.rawg.io/hades.jpg")]
            (mk_GameDetails (PStr "Quake") (PStr "No description available")
               (PStr "Unknown release date") (PInt 5))
            initial_state _ _).
  - reflexivity.
  - intros u. simpl. discriminate.
Defined.

(** ** Requests sent by [load_games] *)

Lemma load_pages_requests net api_key ps :
  ∀ acc s, ∃ n,
    (n ≤ length ps)%nat ∧
    sent (for_loop (load_page net api_key) acc ps s).2 =
      sent s ++ (page_request api_key <$> take n ps) ∧
    (∀ a, (for_loop (load_page net api_key) acc ps s).1 = Ret a → n = length ps) ∧
    (ps ≠ [] → (1 ≤ n)%nat).
Proof.
  induction ps as [|p ps IH]; intros acc s.
  - exists 0%nat. simpl. rewrite app_nil_r. repeat split; [lia | congruence].
  - simpl. rewrite bind_run, load_page_run.
    destruct (fetch_popular_games_effect net api_key p s) as [e1 ->].
    destruct (page_result net api_key p) as [r|e].
    + assert (∀ acc' extra, ∃ n,
                (n ≤ S (length ps))%nat ∧
                sent (for_loop (load_page net api_key) acc' ps
                        (extend extra [page_request api_key p] s)).2 =
                  sent s ++ (page_request api_key <$> take n (p :: ps)) ∧
                (∀ a, (for_loop (load_page net api_key) acc' ps
                         (extend extra [page_request api_key p] s)).1 = Ret a →
                      n = S (length ps)) ∧
                (p :: ps ≠ [] → (1 ≤ n)%nat)) as Hrest.
      { intros acc' extra.
        destruct (IH acc' (extend extra [page_request api_key p] s))
          as (n & Hn & Hsent & Hret & _).
        exists (S n). split; [lia|]. split; [|split].
        - rewrite Hsent. simpl. rewrite <- app_assoc. reflexivity.
        - intros a Ha. rewrite (Hret a Ha). reflexivity.
        - intros _. lia. }
      destruct (page_truthy r); [apply Hrest|].
      rewrite record_error_extend. apply Hrest.
    + exists 1%nat. simpl. split; [lia|]. split; [reflexivity|].
      split; [discriminate | intros _; lia].
Qed.

Lemma load_games_try_sent net api_key s :
  ∃ n,
    (1 ≤ n ≤ 5)%nat ∧
    sent (load_games_try net api_key s).2 =
      sent s ++ (page_request api_key <$> take n [1; 2; 3; 4; 5]) ∧
    ((load_games_try net api_key s).1 = Ret tt → n = 5%nat).
Proof.
  destruct (load_pages_requests net api_key [1; 2; 3; 4; 5] [] s)
    as (n & Hn & Hsent & Hret & Hpos).
  exists n. split; [split; [apply Hpos; discriminate | exact Hn]|].
  unfold load_games_try, load_all_pages. rewrite py_range_1_6, bind_run.
  destruct (for_loop (load_page net api_key) [] [1; 2; 3; 4; 5] s)
    as [[catalog|e] s1].
  - destruct (show_posters_effect catalog s1) as (s2 & -> & _ & _ & (Hs & _)).
    simpl in *. rewrite Hs. split; [exact Hsent|].
    intros _. exact (Hret _ eq_refl).
  - simpl in *. split; [exact Hsent | discriminate].
Qed.

Lemma load_games_sent net api_key dt s :
  ∃ n,
    (1 ≤ n ≤ 5)%nat ∧
    sent (load_games net api_key dt s).2 =
      sent s ++ (page_request api_key <$> take n [1; 2; 3; 4; 5]) ∧
    ((load_games net api_key dt s).1 = Ret tt → n = 5%nat).
Proof.
  destruct (load_games_try_sent net api_key s) as (n & Hn & Hsent & Hret).
  exists n. split; [exact Hn|].
  unfold load_games. rewrite load_games_guarded_run.
  pose proof (load_games_try_raises net api_key s) as Hraise.
  destruct (load_games_try net api_key s) as [[[]|e] s1].
  - split; [exact Hsent|]. intros _. apply Hret. reflexivity.
  - rewrite (Hraise e s1 eq_refl). split; [exact Hsent | discriminate].
Qed.

(** X9. [load_games] never asks for a page twice, never out of order
    and never for a page outside 1..5: the requests it sends are the
    first [n] of the requests for pages 1 to 5, with at least the first
    one, and all five when it returns. *)
Theorem load_games_sends_a_prefix_of_five_requests
    (net : Network) (api_key : string) (dt : Z) (s : State) :
  ∃ n,
    (1 ≤ n ≤ 5)%nat ∧
    sent (load_games net api_key dt s).2 =
      sent s ++ (page_request api_key <$> take n [1; 2; 3; 4; 5]) ∧
    ((load_games net api_key dt s).1 = Ret tt → n = 5%nat).
Proof.
  destruct (load_games_try_sent net api_key s) as (n & Hn & Hsent & Hret).
  exists n. split; [exact Hn|].
  unfold load_games. rewrite load_games_guarded_run.
  pose proof (load_games_try_raises net api_key s) as Hraise.
  destruct (load_games_try net api_key s) as [[[]|e] s1].
  - split; [exact Hsent|]. intros _. apply Hret. reflexivity.
  - rewrite (Hraise e s1 eq_refl). split; [exact Hsent | discriminate].
Qed.

(** ** Interrupted and failed loads *)

Lemma load_pages_interrupted net api_key (pages : Z → option (list GameDetails))
    (done : list Z) (p : Z) (rest : list Z) (e : exn) :
  (∀ q, q ∈ done → page_result net api_key q = Ret (pages q)) →
  net (page_request api_key p) = Raise e →
  isinstance e Exception = false →
  ∀ acc s, ∃ extra,
    for_loop (load_page net api_key) acc (done ++ p :: rest) s =
    (Raise e, extend extra (page_request api_key <$> (done ++ [p])) s).
Proof.
  intros Hdone Hnet He acc s. rewrite for_loop_app.
  destruct (load_pages_effect net api_key pages done Hdone acc s) as (extra & -> & _).
  exists extra. simpl. rewrite bind_run, load_page_run.
  rewrite (fetch_popular_games_interrupt net api_key p _ e Hnet He).
  f_equal. unfold record_sent, extend, set_log, set_sent. simpl.
  rewrite fmap_app, app_assoc. reflexivity.
Qed.

(** X10. When the request for page [p] is interrupted by an exception
    that is not an [Exception] (Ctrl-C, say) after the pages before it
    were fetched, [load_games] stops there: pages 1 to [p] have been
    requested and no later one, the exception propagates, no poster is
    shown (not even for the pages already fetched), the status label is
    untouched, and the popup is dismissed all the same. *)
Theorem interrupted_fetch_aborts_load_games
    (net : Network) (api_key : string) (dt : Z) (s : State)
    (pages : Z → option (list GameDetails)) (p : Z) (e : exn) :
  1 ≤ p ≤ 5 →
  (∀ q, 1 ≤ q < p → page_result net api_key q = Ret (pages q)) →
  net (page_request api_key p) = Raise e →
  isinstance e Exception = false →
  (load_games net api_key dt s).1 = Raise e ∧
  sent (load_games net api_key dt s).2 =
    sent s ++ (page_request api_key <$> seqZ 1 p) ∧
  poster_grid_layout (load_games net api_key dt s).2 = poster_grid_layout s ∧
  error_label (load_games net api_key dt s).2 = error_label s ∧
  loading_popup_open (load_games net api_key dt s).2 = false.
Proof.
  intros Hp Hdone Hnet He.
  assert (∃ done rest,
            [1; 2; 3; 4; 5] = done ++ p :: rest ∧
            done ++ [p] = seqZ 1 p ∧
            ∀ q, q ∈ done → 1 ≤ q < p) as (done & rest & Hsplit & Hseq & Hlt).
  { assert (p = 1 ∨ p = 2 ∨ p = 3 ∨ p = 4 ∨ p = 5) as Hcases by lia.
    destruct Hcases as [-> | [-> | [-> | [-> | ->]]]].
    - exists [], [2; 3; 4; 5]. split; [reflexivity|]. split; [reflexivity|].
      intros q Hq. inversion Hq.
    - exists [1], [3; 4; 5]. split; [reflexivity|]. split; [reflexivity|].
      intros q Hq. rewrite !elem_of_cons, elem_of_nil in Hq. lia.
    - exists [1; 2], [4; 5]. split; [reflexivity|]. split; [reflexivity|].
      intros q Hq. rewrite !elem_of_cons, elem_of_nil in Hq. lia.
    - exists [1; 2; 3], [5]. split; [reflexivity|]. split; [reflexivity|].
      intros q Hq. rewrite !elem_of_cons, elem_of_nil in Hq. lia.
    - exists [1; 2; 3; 4], []. split; [reflexivity|]. split; [reflexivity|].
      intros q Hq. rewrite !elem_of_cons, elem_of_nil in Hq. lia. }
  destruct (load_pages_interrupted net api_key pages done p rest e
              (λ q Hq, Hdone q (Hlt q Hq)) Hnet He [] s) as (extra & Hloop).
  unfold load_games. rewrite load_games_guarded_run.
  unfold load_games_try, load_all_pages.
  rewrite py_range_1_6, bind_run, Hsplit, Hloop, He, Hseq.
  repeat split.
Qed.

Lemma interrupted_fetch_aborts_load_games_witness :
  (load_games odd_net "k" 1 initial_state).1 =
    Raise (mk_exn KeyboardInterrupt EmptyString) ∧
  sent (load_games odd_net "k" 1 initial_state).2 =
    sent initial_state ++ (page_request "k" <$> seqZ 1 4) ∧
  poster_grid_layout (load_games odd_net "k" 1 initial_state).2 =
    poster_grid_layout initial_state ∧
  error_label (load_games odd_net "k" 1 initial_state).2 = error_label initial_state ∧
  loading_popup_open (load_games odd_net "k" 1 initial_state).2 = false.
Proof.
  apply (interrupted_fetch_aborts_load_games odd_net "k" 1 initial_state
           (λ q, match page_result odd_net "k" q with Ret r => r | Raise _ => None end)
           4 (mk_exn KeyboardInterrupt EmptyString)).
  - lia.
  - intros q Hq.
    assert (q = 1 ∨ q = 2 ∨ q = 3) as Hcases by lia.
    destruct Hcases as [-> | [-> | ->]]; vm_compute; reflexivity.
  - reflexivity.
  - reflexivity.
Defined.

(** X11. When no page yields a record (every fetch returns [None] or an
    empty list), [load_games] still returns normally with the popup
    dismissed and every page logged as failed, but the grid stays as it
    was and nothing is written to the status label: the failure is
    visible in the log only. *)
Theorem no_page_no_poster_no_message
    (net : Network) (api_key : string) (dt : Z) (s : State)
    (pages : Z → option (list GameDetails)) :
  (∀ p, 1 ≤ p ≤ 5 →
     page_result net api_key p = Ret (pages p) ∧ page_truthy (pages p) = false) →
  (load_games net api_key dt s).1 = Ret tt ∧
  poster_grid_layout (load_games net api_key dt s).2 = poster_grid_layout s ∧
  error_label (load_games net api_key dt s).2 = error_label s ∧
  loading_popup_open (load_games net api_key dt s).2 = false ∧
  (∀ p, 1 ≤ p ≤ 5 → failed_page_record p ∈ log (load_games net api_key dt s).2).
Proof.
  intros Hpages.
  destruct (load_pages_effect net api_key pages [1; 2; 3; 4; 5])
    with (acc := @nil GameDetails) (s := s) as (extra & Hrun & Hlog).
  { intros p Hp. apply Hpages, elem_of_pages, Hp. }
  assert ([1; 2; 3; 4; 5] ≫= (λ p, default [] (pages p)) = []) as Hnone.
  { assert (∀ p, 1 ≤ p ≤ 5 → default [] (pages p) = []) as Hp.
    { intros p Hp. destruct (Hpages p Hp) as [_ Ht].
      destruct (pages p) as [[|]|]; [reflexivity | discriminate | reflexivity]. }
    simpl. rewrite !Hp by lia. reflexivity. }
  rewrite Hnone in Hrun.
  unfold load_games. rewrite load_games_guarded_run.
  unfold load_games_try, load_all_pages. rewrite py_range_1_6, bind_run, Hrun.
  simpl. repeat split.
  intros p Hp. apply elem_of_app. right.
  apply Hlog; [apply elem_of_pages, Hp | apply Hpages, Hp].
Qed.

Lemma no_page_no_poster_no_message_witness :
  (load_games (λ _, Raise (mk_exn ConnectionError "Network is unreachable")) "k" 1
     initial_state).1 = Ret tt ∧
  poster_grid_layout
    (load_games (λ _, Raise (mk_exn ConnectionError "Network is unreachable")) "k" 1
       initial_state).2 = poster_grid_layout initial_state ∧
  error_label
    (load_games (λ _, Raise (mk_exn ConnectionError "Network is unreachable")) "k" 1
       initial_state).2 = error_label initial_state ∧
  loading_popup_open
    (load_games (λ _, Raise (mk_exn ConnectionError "Network is unreachable")) "k" 1
       initial_state).2 = false ∧
  (∀ p, 1 ≤ p ≤ 5 →
     failed_page_record p ∈
       log (load_games (λ _, Raise (mk_exn ConnectionError "Network is unreachable")) "k" 1
              initial_state).2).
Proof.
  apply (no_page_no_poster_no_message
           (λ _, Raise (mk_exn ConnectionError "Network is unreachable")) "k" 1
           initial_state (λ _, None)).
  intros p _. split; reflexivity.
Defined.

(** ** Phases of a run *)

Lemma run_snoc net api_key (events : list Event) (ev : Event) :
  run net api_key (events ++ [ev]) initial_state =
  match run net api_key events initial_state with
  | (Ret _, s) => dispatch net api_key ev s
  | (Raise e, s) => (Raise e, s)
  end.
Proof.
  unfold run. rewrite !bind_run.
  destruct (build api_key initial_state) as [[root|e] s0]; [|reflexivity].
  rewrite for_loop_app.
  destruct (for_loop (λ _ ev0, dispatch net api_key ev0) tt events s0)
    as [[[]|e] s]; [|reflexivity].
  simpl. rewrite bind_run.
  destruct (dispatch net api_key ev s) as [[[]|e] s']; reflexivity.
Qed.

Lemma build_with_key_waiting (api_key : string) :
  truthy (PStr api_key) = true →
  waiting [] (build api_key initial_state).2.
Proof.
  intros Hkey. unfold build. rewrite !bind_run. simpl in *. rewrite Hkey.
  unfold waiting. simpl. split; [apply not_elem_of_nil|]. repeat split.
Qed.

Lemma load_games_popup net api_key dt s :
  loading_popup_open (load_games net api_key dt s).2 = false.
Proof.
  unfold load_games. rewrite load_games_guarded_run.
  destruct (load_games_try net api_key s) as [[[]|e] s1]; [reflexivity|].
  destruct (isinstance e Exception); reflexivity.
Qed.

Lemma waiting_at_most_five api_key events s :
  waiting events s → at_most_five_requests api_key s.
Proof. intros (_ & _ & _ & Hsent & _). exists 0%nat. split; [lia | exact Hsent]. Qed.

Lemma started_at_most_five api_key events s :
  started api_key events s → at_most_five_requests api_key s.
Proof. intros (_ & _ & _ & Hsent). exists 5%nat. split; [lia | exact Hsent]. Qed.

(** An event that leaves the clock, the requests and the grid alone,
    and the popup too unless it dismisses it. *)
Lemma quiet_event_phase api_key (events : list Event) (ev : Event) (s s' : State) :
  waiting events s ∨ started api_key events s →
  ev ≠ ClockTick →
  clock s' = clock s →
  sent s' = sent s →
  poster_grid_layout s' = poster_grid_layout s →
  loading_popup_open s' = loading_popup_open s ∨
    (ev = DismissPopup ∧ loading_popup_open s' = false) →
  waiting (events ++ [ev]) s' ∨ started api_key (events ++ [ev]) s'.
Proof.
  intros Hphase Hev Hclk Hsent Hgrid Hpop.
  destruct Hphase as [(Hno & H1 & H2 & H3 & H4) | (Hyes & H1 & H2 & H3)].
  - left. unfold waiting. rewrite Hclk, Hsent, Hgrid.
    split; [|split; [exact H1|split; [|split; assumption]]].
    + rewrite elem_of_app, list_elem_of_singleton. intros [? | ?]; [tauto | congruence].
    + intros Hnd. rewrite elem_of_app, list_elem_of_singleton in Hnd.
      destruct Hpop as [-> | [-> _]]; [apply H2; tauto | tauto].
  - right. unfold started. rewrite Hclk, Hsent.
    split; [apply elem_of_app; left; exact Hyes|].
    split; [exact H1|]. split; [|exact H3].
    destruct Hpop as [-> | [_ ->]]; [exact H2 | reflexivity].
Qed.

(** One event in an application that started with a key. *)
Lemma dispatch_phase net api_key (events : list Event) (ev : Event) (s : State) :
  main_screen_shown s →
  waiting events s ∨ started api_key events s →
  at_most_five_requests api_key (dispatch net api_key ev s).2 ∧
  ((dispatch net api_key ev s).1 = Ret tt →
   waiting (events ++ [ev]) (dispatch net api_key ev s).2 ∨
   started api_key (events ++ [ev]) (dispatch net api_key ev s).2).
Proof.
  intros Hs Hphase.
  assert (∀ s', waiting (events ++ [ev]) s' ∨ started api_key (events ++ [ev]) s' →
                at_most_five_requests api_key s') as Hfive.
  { intros s' [Hw | Hst];
      [exact (waiting_at_most_five _ _ _ Hw) | exact (started_at_most_five _ _ _ Hst)]. }
  destruct ev as [|i| |].
  - unfold dispatch.
    destruct Hphase as [(Hno & H1 & H2 & H3 & H4) | (Hyes & H1 & H2 & H3)].
    + rewrite H1. unfold call_all. simpl. rewrite bind_run.
      destruct (load_games_sent net api_key 1 (set_clock (λ _, []) s))
        as (n & Hn & Hsent & Hall).
      pose proof (load_games_popup net api_key 1 (set_clock (λ _, []) s)) as Hpop.
      destruct (load_games_frame net api_key 1 (set_clock (λ _, []) s))
        as (_ & _ & _ & Hclk & _).
      destruct (load_games net api_key 1 (set_clock (λ _, []) s)) as [[[]|e] s1];
        simpl in *; rewrite H3 in Hsent.
      * rewrite (Hall eq_refl) in Hsent.
        assert (started api_key (events ++ [ClockTick]) s1) as Hst.
        { split; [apply elem_of_app; right; left|]. repeat split; assumption. }
        split; [exact (started_at_most_five _ _ _ Hst) | intros _; right; exact Hst].
      * split; [exists n; split; [lia | exact Hsent] | discriminate].
    + rewrite H1. unfold call_all. simpl.
      assert (started api_key (events ++ [ClockTick]) (set_clock (λ _, []) s)) as Hst.
      { split; [apply elem_of_app; left; exact Hyes|]. simpl. repeat split; assumption. }
      split; [exact (started_at_most_five _ _ _ Hst) | intros _; right; exact Hst].
  - assert (dispatch net api_key (Tap i) s = (Ret tt, s)) as ->.
    { destruct (poster_grid_layout s !! i) as [tile|] eqn:Hi.
      - exact (proj2 (tap_changes_nothing net api_key s i tile Hs Hi)).
      - unfold dispatch. rewrite Hi. reflexivity. }
    simpl.
    assert (waiting (events ++ [Tap i]) s ∨ started api_key (events ++ [Tap i]) s) as Hnext.
    { apply (quiet_event_phase api_key events (Tap i) s s Hphase); auto; discriminate. }
    split; [exact (Hfive s Hnext) | intros _; exact Hnext].
  - assert (dispatch net api_key PressBack s = (Ret tt, s)) as ->.
    { unfold dispatch. destruct Hs as (_ & _ & Hdet & _). rewrite Hdet. reflexivity. }
    simpl.
    assert (waiting (events ++ [PressBack]) s ∨ started api_key (events ++ [PressBack]) s)
      as Hnext.
    { apply (quiet_event_phase api_key events PressBack s s Hphase); auto; discriminate. }
    split; [exact (Hfive s Hnext) | intros _; exact Hnext].
  - unfold dispatch. destruct (loading_popup_open s) eqn:Hopen; simpl.
    + assert (waiting (events ++ [DismissPopup]) (set_loading_popup_open false s) ∨
              started api_key (events ++ [DismissPopup]) (set_loading_popup_open false s))
        as Hnext.
      { apply (quiet_event_phase api_key events DismissPopup s _ Hphase);
          try reflexivity; [discriminate | right; split; reflexivity]. }
      split; [exact (Hfive _ Hnext) | intros _; exact Hnext].
    + assert (waiting (events ++ [DismissPopup]) s ∨
              started api_key (events ++ [DismissPopup]) s) as Hnext.
      { apply (quiet_event_phase api_key events DismissPopup s s Hphase);
          try reflexivity; [discriminate | right; split; [reflexivity | exact Hopen]]. }
      split; [exact (Hfive _ Hnext) | intros _; exact Hnext].
Qed.

(** Every run of an application that started with a key. *)
Lemma run_phase net api_key (events : list Event) :
  truthy (PStr api_key) = true →
  at_most_five_requests api_key (run net api_key events initial_state).2 ∧
  ((run net api_key events initial_state).1 = Ret tt →
   main_screen_shown (run net api_key events initial_state).2 ∧
   (waiting events (run net api_key events initial_state).2 ∨
    started api_key events (run net api_key events initial_state).2)).
Proof.
  intros Hkey. induction events as [|ev events IH] using rev_ind.
  - pose proof (build_with_key_waiting api_key Hkey) as Hw.
    destruct (build_with_key api_key Hkey) as (s0 & Hbuild & Hs0).
    unfold run. rewrite bind_run, Hbuild in *. simpl in *.
    split; [exact (waiting_at_most_five _ _ _ Hw)|].
    intros _. split; [exact Hs0 | left; exact Hw].
  - rewrite run_snoc.
    destruct (run net api_key events initial_state) as [[[]|e] s] eqn:Hrun;
      simpl in IH.
    + destruct IH as [_ IH]. destruct (IH eq_refl) as [Hs Hphase].
      destruct (dispatch_phase net api_key events ev s Hs Hphase) as [Hfive Hnext].
      split; [exact Hfive|]. intros Hret. split; [|exact (Hnext Hret)].
      destruct (dispatch net api_key ev s) as [[[]|e] s'] eqn:Hstep;
        [|discriminate].
      exact (dispatch_main_screen_shown _ _ _ _ _ Hs Hstep).
    + split; [exact (proj1 IH) | discriminate].
Qed.

(** X14. Over its whole run the program calls [requests.get] at most
    five times: whatever the key, the network and the events, the calls
    made are the first [n] of those for pages 1 to 5, in that order.
    (The images of the posters are fetched by Kivy's loader, not by
    [requests.get]; they are not counted here.) *)
Theorem run_calls_requests_get_at_most_five_times
    (net : Network) (api_key : string) (events : list Event) :
  ∃ n,
    (n ≤ 5)%nat ∧
    sent (run net api_key events initial_state).2 =
      page_request api_key <$> take n [1; 2; 3; 4; 5].
Proof.
  destruct (truthy (PStr api_key)) eqn:Hkey.
  - exact (proj1 (run_phase net api_key events Hkey)).
  - destruct (build_without_key api_key Hkey) as (s0 & Hbuild & Hs0).
    destruct (events_startup_failed net api_key events s0 Hs0)
      as (s & Hrun & (_ & _ & Hsent & _)).
    exists 0%nat. split; [lia|].
    unfold run. rewrite bind_run, Hbuild, Hrun. exact Hsent.
Qed.

(** X15. A run of an application that started with a key has two
    phases.  Until the clock fires the scheduled [load_games],
    [requests.get] has not been called, the grid is empty, [load_games]
    is still scheduled, and the loading popup is open unless the user
    has dismissed it.  Once [load_games] has fired and returned, the
    popup is dismissed, nothing is scheduled any more and [requests.get]
    has been called for exactly the five pages, in order. *)
Theorem a_started_run_has_two_phases
    (net : Network) (api_key : string) (events : list Event) (s : State) :
  truthy (PStr api_key) = true →
  run net api_key events initial_state = (Ret tt, s) →
  (ClockTick ∉ events →
     sent s = [] ∧ poster_grid_layout s = [] ∧ clock s = [(load_games_cb, 1)] ∧
     (DismissPopup ∉ events → loading_popup_open s = true)) ∧
  (ClockTick ∈ events →
     loading_popup_open s = false ∧ clock s = [] ∧
     sent s = page_request api_key <$> [1; 2; 3; 4; 5]).
Proof.
  intros Hkey Hrun.
  destruct (run_phase net api_key events Hkey) as [_ Hphase].
  rewrite Hrun in Hphase. simpl in Hphase.
  destruct (Hphase eq_refl) as
    [_ [(Hno & Hclk & Hpop & Hsent & Hgrid) | (Hyes & Hclk & Hpop & Hsent)]].
  - split.
    + intros _. repeat split; assumption.
    + intros Hin. destruct (Hno Hin).
  - split.
    + intros Hnot. destruct (Hnot Hyes).
    + intros _. repeat split; assumption.
Qed.

Lemma a_started_run_has_two_phases_witness :
  let events := [Tap 0; ClockTick; Tap 0] in
  let s := (run sample_net "k" events initial_state).2 in
  truthy (PStr "k") = true ∧
  run sample_net "k" events initial_state = (Ret tt, s) ∧
  (ClockTick ∈ events →
     loading_popup_open s = false ∧ clock s = [] ∧
     sent s = page_request "k" <$> [1; 2; 3; 4; 5]).
Proof.
  intros events s.
  assert (truthy (PStr "k") = true) as Hkey by reflexivity.
  assert (run sample_net "k" events initial_state = (Ret tt, s)) as Hrun
    by (vm_compute; reflexivity).
  destruct (a_started_run_has_two_phases sample_net "k" events s Hkey Hrun)
    as (_ & Hafter).
  split; [exact Hkey|]. split; [exact Hrun | exact Hafter].
Defined.

(** ** The API key *)

(** X16. The guard [if not api_key] of [build] fires only when
    [GAME_API_KEY] is set to the empty string: in the environment, or in
    [.env] when the environment does not set it (the environment has
    precedence over [.env]). *)
Theorem api_key_guard_fires_only_for_empty_variable
    (environ dotenv : gmap string string) :
  truthy (PStr (api_key_of environ dotenv)) = false ↔
  environ !! "GAME_API_KEY" = Some EmptyString ∨
  (environ !! "GAME_API_KEY" = None ∧ dotenv !! "GAME_API_KEY" = Some EmptyString).
Proof.
  unfold api_key_of, os_getenv, load_dotenv.
  rewrite lookup_union.
  destruct (environ !! "GAME_API_KEY") as [k|], (dotenv !! "GAME_API_KEY") as [k'|];
    simpl.
  - destruct k; simpl; split.
    + intros _. left. reflexivity.
    + intros _. reflexivity.
    + discriminate.
    + intros [[=] | [[=] _]].
  - destruct k; simpl; split.
    + intros _. left. reflexivity.
    + intros _. reflexivity.
    + discriminate.
    + intros [[=] | [[=] _]].
  - destruct k'; simpl; split.
    + intros _. right. split; reflexivity.
    + intros _. reflexivity.
    + discriminate.
    + intros [[=] | [_ [=]]].
  - split; [discriminate | intros [[=] | [_ [=]]]].
Qed.

(** X17. When [GAME_API_KEY] is set neither in the environment nor in
    [.env], the application does not stop with the API key message: it
    starts, schedules [load_games], and every call of [requests.get] it
    ever makes goes to the base URL with the placeholder
    'your_api_key_here' as its key, a page size of 10 and a page between
    1 and 5. *)
Theorem unset_key_sends_the_placeholder (w : World) (events : list Event) :
  environ w !! "GAME_API_KEY" = None →
  dotenv w !! "GAME_API_KEY" = None →
  (build (api_key_of (environ w) (dotenv w)) initial_state).1 = Ret RootScreenManager ∧
  clock (build (api_key_of (environ w) (dotenv w)) initial_state).2 =
    [(load_games_cb, 1)] ∧
  ∀ req, req ∈ sent (main w events).2 →
    url req = game_api_base_url ∧
    key (params req) = "your_api_key_here" ∧
    page_size (params req) = 10 ∧
    1 ≤ page (params req) ≤ 5.
Proof.
  intros He Hd. unfold main.
  rewrite (api_key_unset (environ w) (dotenv w) He Hd).
  assert (truthy (PStr "your_api_key_here") = true) as Hkey by reflexivity.
  destruct (build_with_key "your_api_key_here" Hkey) as (s0 & Hbuild & _).
  destruct (build_with_key_waiting "your_api_key_here" Hkey) as (_ & Hclk & _).
  split; [rewrite Hbuild; reflexivity|]. split; [exact Hclk|].
  destruct (run_phase (network w) "your_api_key_here" events Hkey)
    as [(n & _ & Hsent) _].
  intros req Hreq. rewrite Hsent in Hreq.
  apply list_elem_of_fmap in Hreq as (p & -> & Hp).
  apply elem_of_take in Hp as (i & Hp & _).
  apply list_elem_of_lookup_2 in Hp. apply elem_of_pages in Hp.
  simpl. repeat split; lia.
Qed.

Lemma unset_key_sends_the_placeholder_witness :
  (build (api_key_of ∅ ∅) initial_state).1 = Ret RootScreenManager ∧
  clock (build (api_key_of ∅ ∅) initial_state).2 = [(load_games_cb, 1)] ∧
  ∀ req, req ∈ sent (main (mk_World ∅ ∅ sample_net) [ClockTick]).2 →
    url req = game_api_base_url ∧
    key (params req) = "your_api_key_here" ∧
    page_size (params req) = 10 ∧
    1 ≤ page (params req) ≤ 5.
Proof.
  exact (unset_key_sends_the_placeholder (mk_World ∅ ∅ sample_net) [ClockTick]
           eq_refl eq_refl).
Defined.

(** ** From pages to posters *)

(** X18. From the reply of the API to the grid: a game of a decoded
    page gets a poster exactly when its item has a non-empty string under
    [background_image], and the poster shows that string; an item
    without the key, with [null] or with the empty string gets none. *)
Theorem item_gets_poster_of_its_image
    (net : Network) (api_key : string) (page_number : Z) (s : State)
    (items : list pyval) (records : list GameDetails) :
  page_reply net api_key page_number items →
  (fetch_popular_games net api_key page_number s).1 = Ret (Some records) →
  Forall2 (λ item r, ∃ g, item = PDict g ∧
                          poster_tiles r = match item_poster_url g with
                                           | Some u => [poster_tile u]
                                           | None => []
                                           end) items records.
Proof.
  intros Hreply.
  rewrite fetch_popular_games_run, (page_records_reply _ _ _ _ Hreply).
  destruct (mapM decode_game items) as [records'|e] eqn:Hmap.
  - intros [= <-]. apply mapM_outcome_Ret in Hmap.
    eapply Forall2_impl; [exact Hmap|].
    intros item r Hdec. cbv beta in Hdec.
    destruct (decode_game_Ret _ _ Hdec) as (g & -> & Hn & _).
    exists g. split; [reflexivity|].
    rewrite (decode_game_dict g _ Hn) in Hdec. injection Hdec as <-.
    rewrite poster_tiles_url. unfold poster_url, item_poster_url. simpl.
    destruct (g !! "background_image") as [[| | | | [|c u] | |]|]; reflexivity.
  - destruct (isinstance e RequestException); [discriminate|].
    destruct (isinstance e Exception); discriminate.
Qed.

Lemma item_gets_poster_of_its_image_witness :
  ∃ records,
    (fetch_popular_games odd_net "k" 1 initial_state).1 = Ret (Some records) ∧
    Forall2 (λ item r, ∃ g, item = PDict g ∧
                            poster_tiles r = match item_poster_url g with
                                             | Some u => [poster_tile u]
                                             | None => []
                                             end) [portal_item; celeste_item] records.
Proof.
  eexists. split; [vm_compute; reflexivity|].
  apply (item_gets_poster_of_its_image odd_net "k" 1 initial_state).
  - eexists _, _. repeat split; reflexivity.
  - vm_compute. reflexivity.
Defined.

(** X19. [load_games] as a whole, when every fetch returns: it returns
    normally and the grid gains the posters of page 1, then those of
    page 2, and so on to page 5, each page in the order of its records;
    pages that returned [None] add nothing. *)
Theorem load_games_shows_pages_in_order
    (net : Network) (api_key : string) (dt : Z) (s : State)
    (pages : Z → option (list GameDetails)) :
  (∀ p, 1 ≤ p ≤ 5 → page_result net api_key p = Ret (pages p)) →
  (load_games net api_key dt s).1 = Ret tt ∧
  poster_grid_layout (load_games net api_key dt s).2 =
    poster_grid_layout s ++
    (poster_tile <$>
       omap poster_url
         (default [] (pages 1) ++ default [] (pages 2) ++ default [] (pages 3) ++
          default [] (pages 4) ++ default [] (pages 5))).
Proof.
  intros Hpages.
  destruct (load_pages_effect net api_key pages [1; 2; 3; 4; 5])
    with (acc := @nil GameDetails) (s := s) as (extra & Hrun & _).
  { intros p Hp. apply Hpages, elem_of_pages, Hp. }
  unfold load_games. rewrite load_games_guarded_run.
  unfold load_games_try, load_all_pages. rewrite py_range_1_6, bind_run, Hrun.
  set (catalog := [] ++ ([1; 2; 3; 4; 5] ≫= λ p, default [] (pages p))).
  destruct (show_posters_effect catalog (extend extra (page_request api_key <$> [1; 2; 3; 4; 5]) s))
    as (s' & -> & Hgrid & _ & _).
  split; [reflexivity|]. simpl. rewrite Hgrid. simpl. f_equal.
  assert (∀ l, l ≫= poster_tiles = poster_tile <$> omap poster_url l) as Htiles.
  { induction l as [|g l IH]; [reflexivity|].
    rewrite bind_cons, IH, poster_tiles_url. simpl.
    destruct (poster_url g); reflexivity. }
  rewrite Htiles. unfold catalog. simpl. rewrite app_nil_r. reflexivity.
Qed.

Lemma load_games_shows_pages_in_order_witness :
  (load_games sample_net "k" 1 initial_state).1 = Ret tt ∧
  poster_grid_layout (load_games sample_net "k" 1 initial_state).2 =
    poster_grid_layout initial_state ++
    (poster_tile <$>
       omap poster_url
         (default [] (sample_pages 1) ++ default [] (sample_pages 2) ++
          default [] (sample_pages 3) ++ default [] (sample_pages 4) ++
          default [] (sample_pages 5))).
Proof.
  apply (load_games_shows_pages_in_order sample_net "k" 1 initial_state sample_pages).
  intros p Hp.
  assert (p = 1 ∨ p = 2 ∨ p = 3 ∨ p = 4 ∨ p = 5) as Hcases by lia.
  destruct Hcases as [-> | [-> | [-> | [-> | ->]]]]; reflexivity.
Defined.
